(** * Microsoft Teams attendance tracker: section locator, sectioned decoder
      and qualification engine

    Shallow embedding of [attendance_reader.py] and [attendance_tracker.py].

    Modelling conventions.
    - A Python exception is a value of [exn]; a computation that may raise
      lives in the [result] monad.
    - The methods of [AttendanceReader] are modelled on a reader whose
      [_csv_reader] is an ordered, fully read sequence of rows, each row a
      list of text fields, indexed like a Python list.  Reading the file is
      not modelled: as written, [_init_csv_reader] leaves a [csv.reader]
      over a file that is already closed, so that on a real file the scan
      started by [__init__] raises [ValueError] and no reader is ever
      constructed.  Nothing below says that a constructor returns.
    - A naive [datetime] is the integer number of microseconds since
      [datetime.min], so that comparison is [Z] comparison and the
      difference of two datetimes is a [timedelta] counted in microseconds.
    - [datetime.strptime] is a parameter of the reader.
    - A Python [float] is a binary64 number: a finite one is the rational
      it stands for, and every operation on floats is the exact operation
      followed by rounding to nearest, ties to even ([binary64_round]),
      with overflow to an infinity.  The sign of a zero is not kept; no
      operation of the source tells the two zeros apart.  The model is
      tested against Rocq's primitive binary64 floats and against their
      specification [SpecFloat]. *)

From Stdlib Require Import ZArith QArith Qround Qabs Qpower Lia Lqa.
From Stdlib Require PrimFloat FloatOps SpecFloat.
From stdpp Require Import base decidable option numbers list sorting strings gmap.

Local Open Scope Z_scope.

(** ** Exceptions *)

Inductive exn : Type :=
  | IndexError   (* sequence index out of range: a row or field is missing *)
  | KeyError     (* dictionary key absent: a section was never located *)
  | ValueError   (* [strptime]: text does not match the format; [int(nan)] *)
  | OverflowError.  (* [int] of an infinite float *)

Inductive result (A : Type) : Type :=
  | Ok (a : A)
  | Raise (e : exn).
Arguments Ok {A} a.
Arguments Raise {A} e.

Definition bind {A B : Type} (c : result A) (k : A -> result B) : result B :=
  match c with
  | Ok a => k a
  | Raise e => Raise e
  end.

Definition rmap {A B : Type} (f : A -> B) (c : result A) : result B :=
  bind c (fun a => Ok (f a)).

Notation "x <~ c ;; k" := (bind c (fun x => k))
  (at level 100, c at next level, right associativity).

(** ** Python built-ins used by the source *)

(** [l[i]] on a list, with Python's treatment of negative indexes. *)
Definition getitem {A : Type} (l : list A) (i : Z) : result A :=
  let n := Z.of_nat (length l) in
  let j := if i <? 0 then i + n else i in
  if (j <? 0) || (n <=? j) then Raise IndexError
  else match l !! Z.to_nat j with
       | Some x => Ok x
       | None => Raise IndexError
       end.

(** [d[k]] on a dictionary. *)
Definition dict_getitem `{Countable K} {V : Type} (d : gmap K V) (k : K)
  : result V :=
  match d !! k with
  | Some v => Ok v
  | None => Raise KeyError
  end.

(** [range(start, stop)]. *)
Definition range (start stop : Z) : list Z := seqZ start (stop - start).

(** [enumerate(l, start)] and [enumerate(l)]. *)
Fixpoint enumerate_from {A : Type} (start : Z) (l : list A) : list (Z * A) :=
  match l with
  | [] => []
  | x :: l' => (start, x) :: enumerate_from (start + 1) l'
  end.

Definition enumerate {A : Type} (l : list A) : list (Z * A) :=
  enumerate_from 0 l.

(** [for x in xs: body], threading the variables the body assigns. *)
Fixpoint for_in {A S : Type} (xs : list A) (body : A -> S -> result S)
    (s : S) : result S :=
  match xs with
  | [] => Ok s
  | x :: xs' => s' <~ body x s ;; for_in xs' body s'
  end.

(** ** Record model (attendance_reader.py, lines 7-39) *)

Definition datetime : Type := Z.

Record InMeetingActivity : Type := mkInMeetingActivity {
  name : string;
  email : string;
  join_time : datetime;
  leave_time : datetime;
  duration : string;
  role : string
}.

Record Participant : Type := mkParticipant {
  p_email : string;
  first_join : datetime;
  last_leave : datetime;
  in_meeting_duration : string;
  participant_id : string;
  p_role : string
}.

Inductive SectionHeading : Type :=
  | START_TIME
  | PARTICIPANTS
  | MEETING_ACTIVITIES
  | VIDEO_AND_AUDIO_CONSENT.

Global Instance SectionHeading_eq_dec : EqDecision SectionHeading.
Proof. solve_decision. Defined.

Definition SectionHeading_to_nat (h : SectionHeading) : nat :=
  match h with
  | START_TIME => 1
  | PARTICIPANTS => 2
  | MEETING_ACTIVITIES => 3
  | VIDEO_AND_AUDIO_CONSENT => 4
  end%nat.

Definition SectionHeading_of_nat (n : nat) : option SectionHeading :=
  match n with
  | 1 => Some START_TIME
  | 2 => Some PARTICIPANTS
  | 3 => Some MEETING_ACTIVITIES
  | 4 => Some VIDEO_AND_AUDIO_CONSENT
  | _ => None
  end%nat.

Global Instance SectionHeading_countable : Countable SectionHeading.
Proof.
  apply (inj_countable SectionHeading_to_nat SectionHeading_of_nat).
  intros []; reflexivity.
Defined.

Record AttendanceConfig : Type := mkAttendanceConfig {
  date_time_format : string;
  section_headings_mapping : gmap string SectionHeading
}.

(** ** AttendanceReader (attendance_reader.py, lines 42-157) *)

Record AttendanceReader : Type := mkAttendanceReader {
  _ATTENDANCE_CONFIG : AttendanceConfig;
  _csv_reader : list (list string);
  _section_indexes : gmap SectionHeading Z
}.

(** Body of the loop of [_extract_section_indexes] (lines 66-73). *)
Definition section_index_step (cfg : AttendanceConfig)
    (item : Z * list string) (section_indexes : gmap SectionHeading Z)
  : result (gmap SectionHeading Z) :=
  let '(index, record) := item in
  section_name <~ getitem record 0 ;;
  match section_headings_mapping cfg !! section_name with
  | Some section_id => Ok (<[section_id := index + 2]> section_indexes)
  | None => Ok section_indexes
  end.

(** [_extract_section_indexes] (lines 61-73), started from the empty
    dictionary of line 55. *)
Definition _extract_section_indexes (cfg : AttendanceConfig)
    (rows : list (list string)) : result (gmap SectionHeading Z) :=
  for_in (enumerate rows) (section_index_step cfg) ∅.

(** The reader the accessors are run on: its [_csv_reader] holds [rows] and
    its [_section_indexes] are what [_extract_section_indexes] leaves
    (lines 50-55 and 59 of [__init__]).  This is not [__init__] itself:
    line 58, [_init_csv_reader], is left out, and with it the closed file
    on which the real constructor fails. *)
Definition reader_of_rows (cfg : AttendanceConfig) (rows : list (list string))
  : result AttendanceReader :=
  section_indexes <~ _extract_section_indexes cfg rows ;;
  Ok (mkAttendanceReader cfg rows section_indexes).

Section Decoder.

(** [datetime.strptime date_string format]; [None] stands for the
    [ValueError] it raises on a mismatch. *)
Variable strptime : string -> string -> option datetime.

(** [_convert_string_to_datetime] (lines 154-157). *)
Definition _convert_string_to_datetime (self : AttendanceReader)
    (date_time_str : string) : result datetime :=
  match strptime date_time_str (date_time_format (_ATTENDANCE_CONFIG self)) with
  | Some d => Ok d
  | None => Raise ValueError
  end.

(** [_extract_start_time] (lines 91-94). *)
Definition _extract_start_time (self : AttendanceReader) : result datetime :=
  start_time_index <~ dict_getitem (_section_indexes self) START_TIME ;;
  record <~ getitem (_csv_reader self) start_time_index ;;
  start_time_str <~ getitem record 1 ;;
  _convert_string_to_datetime self start_time_str.

(** Lines 105-119: one row of the participants section. *)
Definition participant_of_record (self : AttendanceReader)
    (record : list string) : result Participant :=
  f1 <~ getitem record 1 ;;
  join_time <~ _convert_string_to_datetime self f1 ;;
  f2 <~ getitem record 2 ;;
  leave_time <~ _convert_string_to_datetime self f2 ;;
  in_meeting_duration <~ getitem record 3 ;;
  email <~ getitem record 4 ;;
  participant_id <~ getitem record 5 ;;
  role <~ getitem record 6 ;;
  Ok (mkParticipant email join_time leave_time in_meeting_duration
        participant_id role).

(** [_extract_participants] (lines 96-123). *)
Definition _extract_participants (self : AttendanceReader)
  : result (list Participant) :=
  start_index <~ dict_getitem (_section_indexes self) PARTICIPANTS ;;
  end_index <~ rmap (fun i => i - 3)
                 (dict_getitem (_section_indexes self) MEETING_ACTIVITIES) ;;
  for_in (range start_index end_index)
    (fun index participants =>
       record <~ getitem (_csv_reader self) index ;;
       participant <~ participant_of_record self record ;;
       Ok (participants ++ [participant]))
    [].

(** Lines 134-148: one row of the in-meeting activities section. *)
Definition activity_of_record (self : AttendanceReader)
    (record : list string) : result InMeetingActivity :=
  name <~ getitem record 0 ;;
  f1 <~ getitem record 1 ;;
  join_time <~ _convert_string_to_datetime self f1 ;;
  f2 <~ getitem record 2 ;;
  leave_time <~ _convert_string_to_datetime self f2 ;;
  duration <~ getitem record 3 ;;
  email <~ getitem record 4 ;;
  role <~ getitem record 5 ;;
  Ok (mkInMeetingActivity name email join_time leave_time duration role).

(** [_extract_in_meeting_activities] (lines 125-152). *)
Definition _extract_in_meeting_activities (self : AttendanceReader)
  : result (list InMeetingActivity) :=
  start_index <~ dict_getitem (_section_indexes self) MEETING_ACTIVITIES ;;
  end_index <~ rmap (fun i => i - 3)
                 (dict_getitem (_section_indexes self)
                    VIDEO_AND_AUDIO_CONSENT) ;;
  for_in (range start_index end_index)
    (fun index meeting_activities =>
       record <~ getitem (_csv_reader self) index ;;
       activity <~ activity_of_record self record ;;
       Ok (meeting_activities ++ [activity]))
    [].

(** The three properties (lines 75-85). *)
Definition start_time := _extract_start_time.
Definition participants := _extract_participants.
Definition in_meeting_activities := _extract_in_meeting_activities.

(** The scan is run on [rows], then one property is read. *)
Definition read_start_time (cfg : AttendanceConfig)
    (rows : list (list string)) : result datetime :=
  self <~ reader_of_rows cfg rows ;; start_time self.

Definition read_participants (cfg : AttendanceConfig)
    (rows : list (list string)) : result (list Participant) :=
  self <~ reader_of_rows cfg rows ;; participants self.

Definition read_in_meeting_activities (cfg : AttendanceConfig)
    (rows : list (list string)) : result (list InMeetingActivity) :=
  self <~ reader_of_rows cfg rows ;; in_meeting_activities self.

End Decoder.

(** The configuration of attendance_tracker.py, lines 34-42. *)
Definition ATTENDANCE_CONFIG : AttendanceConfig :=
  mkAttendanceConfig "%m/%d/%y, %I:%M:%S %p"
    (<["Start time"%string := START_TIME]>
       (<["2. Participants"%string := PARTICIPANTS]>
          (<["3. In-Meeting Activities"%string := MEETING_ACTIVITIES]>
             (<["4. Explicit Audio and Video Consent Information"%string
                := VIDEO_AND_AUDIO_CONSENT]> ∅)))).

(** ** AttendanceTracker (attendance_tracker.py, lines 15-97) *)

(** [dict[str, int]] keeps its keys in insertion order, and line 79 iterates
    over it: an association list, a new key going to the end. *)
Fixpoint dict_lookup (d : list (string * Z)) (k : string) : option Z :=
  match d with
  | [] => None
  | (k', v) :: d' => if decide (k = k') then Some v else dict_lookup d' k
  end.

(** [k in d]. *)
Definition dict_contains (d : list (string * Z)) (k : string) : bool :=
  match dict_lookup d k with
  | Some _ => true
  | None => false
  end.

(** [d[k] = v]: an existing key keeps its position. *)
Fixpoint dict_setitem (d : list (string * Z)) (k : string) (v : Z)
  : list (string * Z) :=
  match d with
  | [] => [(k, v)]
  | (k', v') :: d' =>
      if decide (k = k') then (k, v) :: d' else (k', v') :: dict_setitem d' k v
  end.

(** [d[k] += v]; the key is present wherever the source does this. *)
Definition dict_iadd (d : list (string * Z)) (k : string) (v : Z)
  : list (string * Z) :=
  match dict_lookup d k with
  | Some t => dict_setitem d k (t + v)
  | None => d
  end.

(** *** Binary64 arithmetic *)

(** A Python [float]. *)
Inductive float : Type :=
  | Finite (q : Q)
  | Infinity (negative : bool)
  | NaN.

Definition pow2 (k : Z) : Q := (2 ^ k)%Q.

(** The integer [e] with [2^e <= x < 2^(e+1)], for [x > 0]. *)
Definition ilog2 (x : Q) : Z :=
  let k := Z.log2 (Qnum x) - Z.log2 (Z.pos (Qden x)) in
  if Qle_bool (pow2 k) x then k else k - 1.

(** The nearest integer, a tie going to the even one. *)
Definition round_half_even (x : Q) : Z :=
  let n := Qfloor x in
  match Qcompare (x - inject_Z n) (1 # 2) with
  | Lt => n
  | Gt => n + 1
  | Eq => if Z.even n then n else n + 1
  end.

(** The nearest multiple of [2^ex]. *)
Definition round_at (ex : Z) (x : Q) : Q :=
  (inject_Z (round_half_even (x / pow2 ex)) * pow2 ex)%Q.

(** Exponent of the last place of the binary64 numbers around [x > 0]: 53
    significant bits, and no spacing finer than [2^-1074]. *)
Definition ulp_exponent (x : Q) : Z := Z.max (ilog2 x) (-1022) - 52.

Definition round_pos (x : Q) : Q := round_at (ulp_exponent x) x.

(** Rounding to binary64, to nearest, ties to even, before the overflow
    test. *)
Definition binary64_round (x : Q) : Q :=
  match Qcompare x 0 with
  | Eq => 0%Q
  | Gt => round_pos x
  | Lt => (- round_pos (- x))%Q
  end.

Definition Qltb (x y : Q) : bool := negb (Qle_bool y x).

(** The float a rounded result is: an infinity from [2^1024] on. *)
Definition float_of_rounded (r : Q) : float :=
  if Qle_bool (pow2 1024) (Qabs r) then Infinity (Qltb r 0) else Finite r.

(** [x * y] on floats. *)
Definition float_mul (x y : float) : float :=
  match x, y with
  | NaN, _ | _, NaN => NaN
  | Finite a, Finite b => float_of_rounded (binary64_round (a * b))
  | Infinity sign, Finite b | Finite b, Infinity sign =>
      if Qeq_bool b 0 then NaN else Infinity (xorb sign (Qltb b 0))
  | Infinity sign, Infinity sign' => Infinity (xorb sign sign')
  end.

(** [int(x)] on a number: truncation toward zero. *)
Definition py_int (x : Q) : Z := Z.quot (Qnum x) (Z.pos (Qden x)).

(** [int(x)] on a float. *)
Definition py_int_float (x : float) : result Z :=
  match x with
  | Finite q => Ok (py_int q)
  | Infinity _ => Raise OverflowError
  | NaN => Raise ValueError
  end.

(** C's [fmod(vx, wx)] on finite numbers, [wx] not zero: exact, with the
    sign of [vx]. *)
Definition fmod (vx wx : Q) : Q := (vx - wx * inject_Z (py_int (vx / wx)))%Q.

(** The end of CPython's [float_divmod]: "snap quotient to nearest
    integral value". *)
Definition snap_quotient (div : Q) : Q :=
  if negb (Qeq_bool div 0) then
    let floordiv := inject_Z (Qfloor div) in
    if Qltb (1 # 2) (binary64_round (div - floordiv))
    then binary64_round (floordiv + 1)
    else floordiv
  else 0%Q.

(** [vx // wx] on finite floats, [wx] not zero, as CPython's [float_divmod]
    computes it: [mod = fmod(vx, wx)], [div = (vx - mod) / wx], one taken
    off [div] when [mod] is not zero and differs in sign from [wx], then
    the snap. *)
Definition float_floordiv (vx wx : Q) : Q :=
  let md := fmod vx wx in
  let div := binary64_round (binary64_round (vx - md) / wx) in
  let div :=
    if negb (Qeq_bool md 0) && negb (Bool.eqb (Qltb wx 0) (Qltb md 0))
    then binary64_round (div - 1)
    else div in
  snap_quotient div.

(** [td.total_seconds()] for a timedelta of [td] microseconds: the
    correctly rounded quotient of two integers.  A timedelta is below
    [10^9] days, far from overflow. *)
Definition total_seconds (td : Z) : Q :=
  binary64_round (inject_Z td / inject_Z 1000000).

(** [td.total_seconds() // 60], a float. *)
Definition minutes_float (td : Z) : Q := float_floordiv (total_seconds td) 60.

(** [int(td.total_seconds() // 60)]. *)
Definition minutes_of (td : Z) : Z := py_int (minutes_float td).

(** *** The kernel's binary64 numbers, to test the model against *)

(** The float a number of [SpecFloat] stands for. *)
Definition float_of_spec (x : SpecFloat.spec_float) : float :=
  match x with
  | SpecFloat.S754_zero _ => Finite 0
  | SpecFloat.S754_infinity s => Infinity s
  | SpecFloat.S754_nan => NaN
  | SpecFloat.S754_finite s m e =>
      Finite ((if s then -1 else 1) * inject_Z (Z.pos m) * pow2 e)
  end.

Definition float_of_prim (x : PrimFloat.float) : float :=
  float_of_spec (FloatOps.Prim2SF x).

(** The primitive float of an integer below [2^53] in absolute value. *)
Definition prim_of_Z (z : Z) : PrimFloat.float :=
  if z <? 0
  then PrimFloat.opp (PrimFloat.of_uint63 (Uint63Axioms.of_Z (- z)))
  else PrimFloat.of_uint63 (Uint63Axioms.of_Z z).

Definition spec_of_Z (z : Z) : SpecFloat.spec_float :=
  match z with
  | Z0 => SpecFloat.S754_zero false
  | Zpos m => SpecFloat.S754_finite false m 0
  | Zneg m => SpecFloat.S754_finite true m 0
  end.

Definition float_eqb (x y : float) : bool :=
  match x, y with
  | Finite a, Finite b => Qeq_bool a b
  | Infinity s, Infinity s' => Bool.eqb s s'
  | NaN, NaN => true
  | _, _ => false
  end.

(** The quotient [a / b] of two integers as the kernel's float division
    computes it, as [SpecFloat] specifies it, and as the model rounds it. *)
Definition kernel_div (a b : Z) : float :=
  float_of_prim (PrimFloat.div (prim_of_Z a) (prim_of_Z b)).

Definition spec_div (a b : Z) : float :=
  float_of_spec (SpecFloat.SFdiv FloatOps.prec FloatOps.emax
                   (spec_of_Z a) (spec_of_Z b)).

Definition model_div (a b : Z) : float :=
  float_of_rounded (binary64_round (inject_Z a / inject_Z b)).

(** The product of the floats [a / b] and [c / d], by the kernel and by
    the model. *)
Definition kernel_mul (a b c d : Z) : float :=
  float_of_prim (PrimFloat.mul (PrimFloat.div (prim_of_Z a) (prim_of_Z b))
                   (PrimFloat.div (prim_of_Z c) (prim_of_Z d))).

Definition model_mul (a b c d : Z) : float :=
  float_mul (model_div a b) (model_div c d).

(** [m * 2^e], by the kernel and by the model. *)
Definition kernel_ldexp (m e : Z) : float :=
  float_of_prim (FloatOps.Z.ldexp (prim_of_Z m) e).

Definition model_ldexp (m e : Z) : float :=
  float_of_rounded (binary64_round (inject_Z m * pow2 e)).

(** *** The method *)

(** Lines 56-59. *)
Definition minimum_minutes_threshold (session_start_time session_end_time : datetime)
    (minimum_attendance_percentage : float) : result Z :=
  py_int_float
    (float_mul (Finite (minutes_float (session_end_time - session_start_time)))
       minimum_attendance_percentage).

(** [start_time] of lines 65-69 holds either the integer [0] or a datetime;
    [start_time == 0] on line 75 is true for the integer only. *)
Inductive int_or_datetime : Type :=
  | IntZero
  | Datetime (d : datetime).

(** Body of the first loop (lines 62-77). *)
Definition accumulate_step (session_start_time session_end_time : datetime)
    (participant_time_mapping : list (string * Z))
    (activity : InMeetingActivity) : list (string * Z) :=
  let participant_time_mapping :=
    if negb (dict_contains participant_time_mapping (email activity))
    then dict_setitem participant_time_mapping (email activity) 0
    else participant_time_mapping in
  let start_time :=
    if bool_decide (session_end_time <= join_time activity)
    then IntZero
    else Datetime (Z.max session_start_time (leave_time activity)) in
  let end_time := Z.min session_end_time (join_time activity) in
  dict_iadd participant_time_mapping (email activity)
    (match start_time with
     | IntZero => 0
     | Datetime start_time => minutes_of (end_time - start_time)
     end).

(** The mapping after the first loop (lines 54, 61-77). *)
Definition participant_time_mapping (activities : list InMeetingActivity)
    (session_start_time session_end_time : datetime) : list (string * Z) :=
  foldl (accumulate_step session_start_time session_end_time) [] activities.

(** Body of the second loop (lines 80-81). *)
Definition qualify_step (minimum_minutes_threshold : Z)
    (qualified_participants : list string) (item : string * Z)
  : list string :=
  let '(email, total_time) := item in
  if bool_decide (minimum_minutes_threshold <= total_time)
  then qualified_participants ++ [email]
  else qualified_participants.

(** [get_qualified_participants] (lines 46-83) on the value of
    [self._attendance_reader.in_meeting_activities]: the threshold is
    computed first (and may raise), then the two loops run. *)
Definition get_qualified_participants (activities : list InMeetingActivity)
    (session_start_time session_end_time : datetime)
    (minimum_attendance_percentage : float) : result (list string) :=
  threshold <~
    minimum_minutes_threshold session_start_time session_end_time
      minimum_attendance_percentage ;;
  Ok (foldl (qualify_step threshold) []
        (participant_time_mapping activities session_start_time
           session_end_time)).

(** The method on a tracker whose reader is [reader]: the property is read
    on line 61, after the threshold, and may raise. *)
Definition tracker_get_qualified_participants
    (strptime : string -> string -> option datetime)
    (reader : AttendanceReader)
    (session_start_time session_end_time : datetime)
    (minimum_attendance_percentage : float) : result (list string) :=
  threshold <~
    minimum_minutes_threshold session_start_time session_end_time
      minimum_attendance_percentage ;;
  activities <~ in_meeting_activities strptime reader ;;
  Ok (foldl (qualify_step threshold) []
        (participant_time_mapping activities session_start_time
           session_end_time)).

(** [generate_qualified_participants_file] (lines 85-97): the text handed
    to [file.write], [",".join(qualified_participants)]; the file is opened
    only after the method has returned. *)
Definition qualified_participants_file_text
    (strptime : string -> string -> option datetime)
    (reader : AttendanceReader)
    (session_start_time session_end_time : datetime)
    (minimum_attendance_percentage : float) : result string :=
  qualified_participants <~
    tracker_get_qualified_participants strptime reader session_start_time
      session_end_time minimum_attendance_percentage ;;
  Ok (String.concat "," qualified_participants).

(** ** Reference definitions used to state the properties *)


(** The minutes lines 73-77 add for one activity, as the code computes
    them. *)
Definition activity_minutes (session_start_time session_end_time : datetime)
    (activity : InMeetingActivity) : Z :=
  if bool_decide (session_end_time <= join_time activity) then 0
  else minutes_of (Z.min session_end_time (join_time activity)
                   - Z.max session_start_time (leave_time activity)).

Definition Zsum (l : list Z) : Z := foldr Z.add 0 l.

(** Sum of the minutes added by the activities of [e]. *)
Definition total_minutes (session_start_time session_end_time : datetime)
    (e : string) (activities : list InMeetingActivity) : Z :=
  Zsum (activity_minutes session_start_time session_end_time
          <$> filter (fun a => email a = e) activities).

(** A datetime whose microsecond field is 0, as every datetime parsed with
    the configured format is; the bound is [datetime.max]. *)
Definition whole_second (t : datetime) : Prop :=
  exists sec : Z, t = sec * 1000000 /\ 0 <= sec < 315537897600.

(** Position of the first occurrence of [e] in [l]. *)
Fixpoint first_position (e : string) (l : list string) : option nat :=
  match l with
  | [] => None
  | x :: l' => if decide (e = x) then Some 0%nat else S <$> first_position e l'
  end.

(** [e1] makes its first appearance in [l] before [e2] does. *)
Definition appears_before (l : list string) (e1 e2 : string) : Prop :=
  exists p q : nat,
    first_position e1 l = Some p /\ first_position e2 l = Some q /\ (p < q)%nat.

(** The threshold in the words of the specification, the division by 60
    being exact. *)
Definition threshold_as_specified (windowStart windowEnd : datetime)
    (minFraction : Q) : Z :=
  Qfloor ((inject_Z (windowEnd - windowStart) / inject_Z 1000000 / inject_Z 60)
          * minFraction)%Q.

(** The section a row announces: the one its first field is mapped to, if
    the row has a first field and the mapping has that text as a key. *)
Definition heading_of (cfg : AttendanceConfig) (record : list string)
  : option SectionHeading :=
  match record with
  | [] => None
  | section_name :: _ => section_headings_mapping cfg !! section_name
  end.

(** Index of the last row of [rows] that announces [lbl]. *)
Fixpoint last_heading_row (cfg : AttendanceConfig) (lbl : SectionHeading)
    (rows : list (list string)) : option nat :=
  match rows with
  | [] => None
  | record :: rest =>
      match last_heading_row cfg lbl rest with
      | Some j => Some (S j)
      | None => if decide (heading_of cfg record = Some lbl) then Some 0%nat else None
      end
  end.

(** Decode the elements of [xs] in order, stopping at the first failure. *)
Fixpoint traverse {A B : Type} (g : A -> result B) (xs : list A)
  : result (list B) :=
  match xs with
  | [] => Ok []
  | x :: xs' => y <~ g x ;; ys <~ traverse g xs' ;; Ok (y :: ys)
  end.

Definition is_Ok {A : Type} (c : result A) : Prop := exists a, c = Ok a.

(** ** Concrete inputs used by the examples *)

(** A time of day, as a datetime on the day of the origin. *)
Definition at_time (h m sec : Z) : datetime := ((h * 60 + m) * 60 + sec) * 1000000.

(** The datetime [t] microseconds into the day [date.fromordinal(ordinal)]. *)
Definition on_day (ordinal : Z) (t : Z) : datetime :=
  (ordinal - 1) * 86400000000 + t.

(** The floats [0.1], [0.7] and [0.57]. *)
Definition float_0_1 : float := Finite (3602879701896397 # 36028797018963968).
Definition float_0_7 : float := Finite (3152519739159347 # 4503599627370496).
Definition float_0_57 : float := Finite (5134103575202365 # 9007199254740992).



Definition activity_of (who : string) (join leave : datetime)
  : InMeetingActivity :=
  mkInMeetingActivity "Joined" who join leave "" "Attendee".

(** One participant, present from 13:59 to 14:00. *)
Definition early_leaver : list InMeetingActivity :=
  [activity_of "ann@example.org" (at_time 13 59 0) (at_time 14 0 0)].

(** One participant, joining at 14:00, when the window below has closed. *)
Definition late_joiner : list InMeetingActivity :=
  [activity_of "bob@example.org" (at_time 14 0 0) (at_time 14 30 0)].

(** One participant, present from 13:58:20 to 13:59:50. *)
Definition short_visit : list InMeetingActivity :=
  [activity_of "eve@example.org" (at_time 13 58 20) (at_time 13 59 50)].

(** Two participants, the first seen again after the second. *)
Definition two_participants : list InMeetingActivity :=
  [activity_of "ann@example.org" (at_time 14 0 0) (at_time 14 10 0);
   activity_of "bob@example.org" (at_time 14 0 0) (at_time 14 20 0);
   activity_of "ann@example.org" (at_time 14 20 0) (at_time 14 30 0)].

(** A stand-in for [strptime] that knows three timestamps of the default
    format. *)
Definition strptime_table (date_string format : string) : option datetime :=
  if decide (format = "%m/%d/%y, %I:%M:%S %p"%string) then
    if decide (date_string = "03/21/24, 02:15:07 PM"%string)
    then Some (at_time 14 15 7)
    else if decide (date_string = "03/21/24, 02:20:00 PM"%string)
    then Some (at_time 14 20 0)
    else if decide (date_string = "03/21/24, 02:45:00 PM"%string)
    then Some (at_time 14 45 0)
    else None
  else None.

(** A small export with the four headings, every row having a first field. *)
Definition sample_rows : list (list string) :=
  [ ["Start time"; ""];
    ["-"];
    ["Meeting"; "03/21/24, 02:15:07 PM"];
    ["2. Participants"];
    ["Name"; "First Join"; "Last Leave"; "In-Meeting Duration"; "Email";
     "Participant ID (UPN)"; "Role"];
    ["Ann"; "03/21/24, 02:15:07 PM"; "03/21/24, 02:45:00 PM"; "29m 53s";
     "ann@example.org"; "ann@example.org"; "Organizer"];
    ["-"];
    ["3. In-Meeting Activities"];
    ["Name"; "Join Time"; "Leave Time"; "Duration"; "Email"; "Role"];
    ["Ann"; "03/21/24, 02:20:00 PM"; "03/21/24, 02:45:00 PM"; "25m";
     "ann@example.org"; "Organizer"];
    ["-"];
    ["4. Explicit Audio and Video Consent Information"] ]%string.

(** The same export without its "Start time" row. *)
Definition sample_rows_no_start : list (list string) := drop 1 sample_rows.

(** Two rows that announce no section. *)
Definition leading_rows : list (list string) :=
  [ ["1. Summary"]; ["Meeting title"; "Weekly"] ]%string.

(** The offsets of [sample_rows], and the reader built from it. *)
Definition sample_indexes : gmap SectionHeading Z :=
  <[START_TIME := 2]>
    (<[PARTICIPANTS := 5]>
       (<[MEETING_ACTIVITIES := 9]>
          (<[VIDEO_AND_AUDIO_CONSENT := 13]> ∅))).

Definition sample_reader : AttendanceReader :=
  mkAttendanceReader ATTENDANCE_CONFIG sample_rows sample_indexes.

Definition sample_participant : Participant :=
  mkParticipant "ann@example.org" (at_time 14 15 7) (at_time 14 45 0)
    "29m 53s" "ann@example.org" "Organizer".

Definition sample_activity : InMeetingActivity :=
  mkInMeetingActivity "Ann" "ann@example.org" (at_time 14 20 0)
    (at_time 14 45 0) "25m" "Organizer".

(** A row of the participants section, and one of the activities section. *)
Definition participant_row : list string :=
  [ "Ann"; "03/21/24, 02:15:07 PM"; "03/21/24, 02:45:00 PM"; "29m 53s";
    "ann@example.org"; "ann@example.org"; "Organizer" ]%string.

Definition activity_row : list string :=
  [ "Ann"; "03/21/24, 02:20:00 PM"; "03/21/24, 02:45:00 PM"; "25m";
    "ann@example.org"; "Organizer" ]%string.

(** [sample_rows] with other texts after the first field of every row. *)
Definition sample_rows_other_fields : list (list string) :=
  (fun record => take 1 record ++ ["x"%string]) <$> sample_rows.

(** [two_participants] with the first activity moved to the end. *)
Definition two_participants_rotated : list InMeetingActivity :=
  [activity_of "bob@example.org" (at_time 14 0 0) (at_time 14 20 0);
   activity_of "ann@example.org" (at_time 14 20 0) (at_time 14 30 0);
   activity_of "ann@example.org" (at_time 14 0 0) (at_time 14 10 0)].

(** * Properties of the qualification engine *)

Section DictFacts.

Implicit Types (d : list (string * Z)) (k e : string) (v : Z).

Lemma dict_lookup_setitem_eq d k v :
  dict_lookup (dict_setitem d k v) k = Some v.
Proof.
  induction d as [|[k' v'] d IH]; simpl.
  - by rewrite decide_True.
  - destruct (decide (k = k')) as [->|Hne]; simpl.
    + by rewrite decide_True.
    + by rewrite decide_False.
Qed.

Lemma dict_lookup_setitem_ne d k e v :
  e <> k -> dict_lookup (dict_setitem d k v) e = dict_lookup d e.
Proof.
  intros Hne. induction d as [|[k' v'] d IH]; simpl.
  - by rewrite decide_False.
  - destruct (decide (k = k')) as [->|Hk]; simpl.
    + by rewrite !decide_False.
    + destruct (decide (e = k')); [done | apply IH].
Qed.

Lemma dict_lookup_None d k : dict_lookup d k = None <-> k ∉ d.*1.
Proof.
  induction d as [|[k' v'] d IH]; csimpl.
  - split; [intros _; apply not_elem_of_nil | done].
  - rewrite not_elem_of_cons. destruct (decide (k = k')) as [->|Hne].
    + split; [done | intros [Hk _]; by destruct Hk].
    + rewrite IH. split; [by split | by intros [_ ?]].
Qed.

Lemma dict_contains_true d k : dict_contains d k = true <-> k ∈ d.*1.
Proof.
  unfold dict_contains. destruct (dict_lookup d k) eqn:E.
  - split; [intros _ | done].
    destruct (decide (k ∈ d.*1)) as [|Hn]; [done |].
    apply dict_lookup_None in Hn. congruence.
  - apply dict_lookup_None in E. split; [done | intros; contradiction].
Qed.

Lemma dict_keys_setitem d k v :
  (dict_setitem d k v).*1 = if dict_contains d k then d.*1 else d.*1 ++ [k].
Proof.
  unfold dict_contains. induction d as [|[k' v'] d IH]; csimpl; [done |].
  destruct (decide (k = k')) as [->|Hne]; csimpl; [done |].
  rewrite IH. by destruct (dict_lookup d k).
Qed.

Lemma dict_keys_iadd d k v : (dict_iadd d k v).*1 = d.*1.
Proof.
  unfold dict_iadd. destruct (dict_lookup d k) eqn:E; [| done].
  rewrite dict_keys_setitem. unfold dict_contains. by rewrite E.
Qed.

Lemma dict_lookup_elem_of d k v :
  NoDup d.*1 -> (k, v) ∈ d <-> dict_lookup d k = Some v.
Proof.
  induction d as [|[k' v'] d IH]; csimpl; intros Hnd.
  - split; [by intros ?%elem_of_nil | done].
  - apply NoDup_cons in Hnd as [Hk' Hnd]. rewrite elem_of_cons.
    destruct (decide (k = k')) as [->|Hne].
    + split.
      * intros [[= ->] | Hin]; [done |].
        exfalso. apply Hk'. apply list_elem_of_fmap. by exists (k', v).
      * intros [= ->]. by left.
    + rewrite <- IH by done. split; [| by right].
      intros [[= -> _] | Hin]; [done | done].
Qed.

End DictFacts.

Section FirstPosition.

Implicit Types (l : list string) (e : string).

Lemma first_position_is_Some e l : e ∈ l -> is_Some (first_position e l).
Proof.
  induction l as [|x l IH]; simpl; [by intros ?%elem_of_nil |].
  intros Hin. destruct (decide (e = x)); [by eexists |].
  apply elem_of_cons in Hin as [? | Hin]; [done |].
  destruct (IH Hin) as [p ->]. by eexists.
Qed.

Lemma first_position_lt e l p : first_position e l = Some p -> (p < length l)%nat.
Proof.
  revert p. induction l as [|x l IH]; simpl; intros p; [done |].
  destruct (decide (e = x)); [intros [= <-]; lia |].
  destruct (first_position e l) as [q|]; simpl; [| done].
  intros [= <-]. specialize (IH q eq_refl). lia.
Qed.

Lemma first_position_app_l e l k :
  e ∈ l -> first_position e (l ++ k) = first_position e l.
Proof.
  induction l as [|x l IH]; simpl; [by intros ?%elem_of_nil |].
  intros Hin. destruct (decide (e = x)); [done |].
  apply elem_of_cons in Hin as [? | Hin]; [done |]. by rewrite IH.
Qed.

Lemma first_position_snoc_fresh e l :
  e ∉ l -> first_position e (l ++ [e]) = Some (length l).
Proof.
  induction l as [|x l IH]; simpl; intros Hn.
  - by rewrite decide_True.
  - apply not_elem_of_cons in Hn as [Hne Hn].
    rewrite decide_False by done. by rewrite IH.
Qed.

Lemma appears_before_irrefl l e : ~ appears_before l e e.
Proof. intros (p & q & Hp & Hq & Hlt). rewrite Hp in Hq. injection Hq. lia. Qed.

Lemma appears_before_app l k e1 e2 :
  e1 ∈ l -> e2 ∈ l -> appears_before l e1 e2 -> appears_before (l ++ k) e1 e2.
Proof.
  intros H1 H2 (p & q & Hp & Hq & Hlt). exists p, q.
  by rewrite !first_position_app_l.
Qed.

Lemma appears_before_snoc_fresh l e1 e2 :
  e1 ∈ l -> e2 ∉ l -> appears_before (l ++ [e2]) e1 e2.
Proof.
  intros H1 H2. destruct (first_position_is_Some _ _ H1) as [p Hp].
  exists p, (length l). rewrite first_position_app_l by done.
  rewrite first_position_snoc_fresh by done.
  split_and!; [done | done |]. by eapply first_position_lt.
Qed.

End FirstPosition.

Lemma StronglySorted_irrefl_NoDup {A : Type} (R : A -> A -> Prop) (l : list A) :
  (forall x, ~ R x x) -> StronglySorted R l -> NoDup l.
Proof.
  intros Hirr. induction 1 as [|x l Hs IH Hall]; constructor; [| done].
  intros Hin. rewrite Forall_forall in Hall. by apply (Hirr x), Hall.
Qed.

Lemma StronglySorted_impl_elem_of {A : Type} (R R' : A -> A -> Prop) (l : list A) :
  (forall x y, x ∈ l -> y ∈ l -> R x y -> R' x y) ->
  StronglySorted R l -> StronglySorted R' l.
Proof.
  intros Himp Hs. induction Hs as [|x l Hs IH Hall]; constructor.
  - apply IH. intros y z Hy Hz. apply Himp; by right.
  - rewrite Forall_forall in Hall |- *. intros y Hy.
    apply Himp; [by left | by right | by apply Hall].
Qed.

Lemma StronglySorted_filter_keys (R : string -> string -> Prop)
    (P : string * Z -> Prop) `{!forall x, Decision (P x)} (d : list (string * Z)) :
  StronglySorted R d.*1 -> StronglySorted R (filter P d).*1.
Proof.
  induction d as [|[k v] d IH]; csimpl; [done |].
  intros [Hall Hs]%StronglySorted_cons.
  rewrite filter_cons. destruct (decide (P (k, v))); csimpl; [| by apply IH].
  apply StronglySorted_cons. split; [| by apply IH].
  rewrite Forall_forall in Hall |- *. intros e He. apply Hall.
  apply list_elem_of_fmap in He as (x & -> & Hx%list_elem_of_filter).
  apply list_elem_of_fmap. exists x. by destruct Hx.
Qed.

Section Binary64.

Local Open Scope Q_scope.

Lemma two_neq_0 : ~ 2 == 0.
Proof. discriminate. Qed.

Lemma pow2_pos k : 0 < pow2 k.
Proof. apply Qpower_0_lt. reflexivity. Qed.

Lemma pow2_add a b : pow2 (a + b) == pow2 a * pow2 b.
Proof. apply Qpower_plus, two_neq_0. Qed.

Lemma pow2_le a b : (a <= b)%Z -> pow2 a <= pow2 b.
Proof. intros. apply Qpower_le_compat_l; [assumption | discriminate]. Qed.

Lemma pow2_lt a b : (a < b)%Z -> pow2 a < pow2 b.
Proof. intros. apply Qpower_lt_compat_l; [assumption | reflexivity]. Qed.

Lemma pow2_Z k : (0 <= k)%Z -> pow2 k == inject_Z (2 ^ k).
Proof. intros. symmetry. apply (Zpower_Qpower 2 k). assumption. Qed.

Lemma div_pow2 x k : x / pow2 k == x * pow2 (- k).
Proof. unfold Qdiv, pow2. rewrite Qpower_opp. reflexivity. Qed.

Lemma pow2_cancel k : pow2 (- k) * pow2 k == 1.
Proof. rewrite <- pow2_add. replace (- k + k)%Z with 0%Z by lia. reflexivity. Qed.

Lemma ilog2_spec x : 0 < x -> pow2 (ilog2 x) <= x /\ x < pow2 (ilog2 x + 1).
Proof.
  destruct x as [n d]. intros Hx.
  assert (Hn : (0 < n)%Z) by (unfold Qlt in Hx; simpl in Hx; lia).
  unfold ilog2. cbn [Qnum Qden].
  destruct (Z.log2_spec n Hn) as [Hn1 Hn2].
  destruct (Z.log2_spec (Z.pos d) ltac:(lia)) as [Hd1 Hd2].
  set (ln := Z.log2 n) in *. set (ld := Z.log2 (Z.pos d)) in *.
  assert (Hln : (0 <= ln)%Z) by apply Z.log2_nonneg.
  assert (Hld : (0 <= ld)%Z) by apply Z.log2_nonneg.
  assert (Hdq : 0 < inject_Z (Z.pos d)) by reflexivity.
  assert (Hup : n # d < pow2 (ln - ld + 1)).
  { rewrite Qmake_Qdiv. apply Qlt_shift_div_r; [exact Hdq |].
    apply Qlt_le_trans with (pow2 (ln + 1)).
    - rewrite pow2_Z by lia. rewrite <- Zlt_Qlt.
      replace (ln + 1)%Z with (Z.succ ln) by lia. exact Hn2.
    - replace (ln + 1)%Z with ((ln - ld + 1) + ld)%Z by lia.
      rewrite pow2_add. apply Qmult_le_l; [apply pow2_pos |].
      rewrite pow2_Z by lia. rewrite <- Zle_Qle. exact Hd1. }
  assert (Hlo : pow2 (ln - ld - 1) <= n # d).
  { rewrite Qmake_Qdiv. apply Qle_shift_div_l; [exact Hdq |].
    apply Qle_trans with (pow2 ln).
    - replace ln with ((ln - ld - 1) + (ld + 1))%Z at 2 by lia.
      rewrite pow2_add. apply Qmult_le_l; [apply pow2_pos |].
      rewrite pow2_Z by lia. rewrite <- Zle_Qle.
      replace (ld + 1)%Z with (Z.succ ld) by lia. lia.
    - rewrite pow2_Z by lia. rewrite <- Zle_Qle. exact Hn1. }
  destruct (Qle_bool (pow2 (ln - ld)) (n # d)) eqn:E.
  - apply Qle_bool_iff in E. split; assumption.
  - split; [exact Hlo |].
    replace (ln - ld - 1 + 1)%Z with (ln - ld)%Z by lia.
    apply Qnot_le_lt. intros H. apply Qle_bool_iff in H. congruence.
Qed.

Lemma ilog2_unique x e : pow2 e <= x -> x < pow2 (e + 1) -> ilog2 x = e.
Proof.
  intros H1 H2.
  assert (Hx : 0 < x) by (eapply Qlt_le_trans; [apply (pow2_pos e) | exact H1]).
  destruct (ilog2_spec x Hx) as [H3 H4].
  assert (~ (e + 1 <= ilog2 x)%Z).
  { intros Hc. apply (pow2_le (e + 1) (ilog2 x)) in Hc.
    apply (Qlt_irrefl x). eapply Qlt_le_trans; [exact H2 |].
    eapply Qle_trans; [exact Hc | exact H3]. }
  assert (~ (ilog2 x + 1 <= e)%Z).
  { intros Hc. apply (pow2_le (ilog2 x + 1) e) in Hc.
    apply (Qlt_irrefl x). eapply Qlt_le_trans; [exact H4 |].
    eapply Qle_trans; [exact Hc | exact H1]. }
  lia.
Qed.

Lemma ilog2_mono x y : 0 < x -> x <= y -> (ilog2 x <= ilog2 y)%Z.
Proof.
  intros Hx Hxy.
  assert (Hy : 0 < y) by (eapply Qlt_le_trans; eassumption).
  destruct (ilog2_spec x Hx) as [H1 _]. destruct (ilog2_spec y Hy) as [_ H2].
  assert (Hlt : pow2 (ilog2 x) < pow2 (ilog2 y + 1)).
  { eapply Qle_lt_trans; [exact H1 |]. eapply Qle_lt_trans; [exact Hxy | exact H2]. }
  apply Qpower_lt_compat_l_inv in Hlt; [lia | reflexivity].
Qed.


Lemma round_pos_round_at x : round_pos x = round_at (ulp_exponent x) x.
Proof. reflexivity. Qed.

Lemma round_half_even_bounds x :
  (Qfloor x <= round_half_even x <= Qfloor x + 1)%Z.
Proof.
  unfold round_half_even.
  destruct (x - inject_Z (Qfloor x) ?= 1 # 2); [destruct (Z.even _) | |]; lia.
Qed.

Lemma round_half_even_mono x y :
  x <= y -> (round_half_even x <= round_half_even y)%Z.
Proof.
  intros Hxy. pose proof (Qfloor_resp_le x y Hxy) as Hfl.
  destruct (Z.eq_dec (Qfloor x) (Qfloor y)) as [Heq | Hne].
  - unfold round_half_even. rewrite <- Heq.
    destruct (Qcompare_spec (x - inject_Z (Qfloor x)) (1 # 2)) as [Hx | Hx | Hx];
      destruct (Qcompare_spec (y - inject_Z (Qfloor x)) (1 # 2)) as [Hy | Hy | Hy];
      try (destruct (Z.even (Qfloor x))); try lia; exfalso; lra.
  - pose proof (round_half_even_bounds x). pose proof (round_half_even_bounds y).
    lia.
Qed.

Lemma round_half_even_proper x y : x == y -> round_half_even x = round_half_even y.
Proof.
  intros Heq. apply Z.le_antisymm; apply round_half_even_mono;
    rewrite Heq; apply Qle_refl.
Qed.

Lemma round_half_even_Z z : round_half_even (inject_Z z) = z.
Proof.
  unfold round_half_even. rewrite Qfloor_Z.
  destruct (Qcompare_spec (inject_Z z - inject_Z z) (1 # 2)) as [H | H | H];
    [exfalso; lra | reflexivity | exfalso; lra].
Qed.

Lemma round_at_mono ex x y : x <= y -> round_at ex x <= round_at ex y.
Proof.
  intros Hxy. unfold round_at.
  apply Qmult_le_compat_r; [| apply Qlt_le_weak, pow2_pos].
  rewrite <- Zle_Qle. apply round_half_even_mono.
  unfold Qdiv. apply Qmult_le_compat_r; [exact Hxy |].
  apply Qlt_le_weak, Qinv_lt_0_compat, pow2_pos.
Qed.

Lemma round_at_fix ex x k : x == inject_Z k * pow2 ex -> round_at ex x == x.
Proof.
  intros Hx. unfold round_at.
  assert (Hk : x / pow2 ex == inject_Z k).
  { rewrite Hx. field. pose proof (pow2_pos ex). lra. }
  rewrite (round_half_even_proper _ _ Hk), round_half_even_Z.
  symmetry. exact Hx.
Qed.

Lemma pow2_multiple a b : (b <= a)%Z -> pow2 a == inject_Z (2 ^ (a - b)) * pow2 b.
Proof.
  intros Hba. rewrite <- pow2_Z by lia. rewrite <- pow2_add.
  replace (a - b + b)%Z with a by lia. reflexivity.
Qed.

Lemma round_pos_nonneg x : 0 < x -> 0 <= round_pos x.
Proof.
  intros Hx. unfold round_pos.
  apply Qmult_le_0_compat; [| apply Qlt_le_weak, pow2_pos].
  change 0 with (inject_Z 0). rewrite <- Zle_Qle.
  rewrite <- (round_half_even_Z 0). apply round_half_even_mono.
  apply Qle_shift_div_l; [apply pow2_pos |].
  change (inject_Z 0) with 0. rewrite Qmult_0_l. apply Qlt_le_weak, Hx.
Qed.

Lemma round_pos_mono x y : 0 < x -> x <= y -> round_pos x <= round_pos y.
Proof.
  intros Hx Hxy.
  assert (Hy : 0 < y) by (eapply Qlt_le_trans; eassumption).
  pose proof (ilog2_mono x y Hx Hxy) as Hlog.
  rewrite !round_pos_round_at. unfold ulp_exponent.
  destruct (Z.eq_dec (Z.max (ilog2 x) (-1022)) (Z.max (ilog2 y) (-1022)))
    as [Heq | Hne].
  - rewrite Heq. apply round_at_mono. exact Hxy.
  - assert (He : (ilog2 x < ilog2 y /\ -1022 < ilog2 y)%Z) by lia.
    destruct He as [He1 He2].
    replace (Z.max (ilog2 y) (-1022)) with (ilog2 y) by lia.
    set (p := pow2 (ilog2 y)).
    destruct (ilog2_spec x Hx) as [_ Hxup]. destruct (ilog2_spec y Hy) as [Hylo _].
    assert (Hxp : x <= p).
    { apply Qlt_le_weak. eapply Qlt_le_trans; [exact Hxup |].
      apply pow2_le. lia. }
    apply Qle_trans with p.
    + rewrite <- (round_at_fix (Z.max (ilog2 x) (-1022) - 52) p
                    (2 ^ (ilog2 y - (Z.max (ilog2 x) (-1022) - 52)))).
      * apply round_at_mono. exact Hxp.
      * apply pow2_multiple. lia.
    + rewrite <- (round_at_fix (ilog2 y - 52) p (2 ^ (ilog2 y - (ilog2 y - 52)))) at 1.
      * apply round_at_mono. exact Hylo.
      * apply pow2_multiple. lia.
Qed.

Lemma binary64_round_mono x y : x <= y -> binary64_round x <= binary64_round y.
Proof.
  intros Hxy. unfold binary64_round.
  destruct (Qcompare_spec x 0) as [Hx | Hx | Hx];
    destruct (Qcompare_spec y 0) as [Hy | Hy | Hy]; try (exfalso; lra).
  - apply Qle_refl.
  - apply round_pos_nonneg. exact Hy.
  - assert (H := round_pos_nonneg (- x) ltac:(lra)). lra.
  - apply Qopp_le_compat. apply round_pos_mono; lra.
  - assert (H1 := round_pos_nonneg (- x) ltac:(lra)).
    assert (H2 := round_pos_nonneg y Hy). lra.
  - apply round_pos_mono; assumption.
Qed.

Lemma binary64_round_proper x y : x == y -> binary64_round x == binary64_round y.
Proof.
  intros Heq. apply Qle_antisym; apply binary64_round_mono; rewrite Heq; apply Qle_refl.
Qed.

Lemma binary64_round_0 : binary64_round 0 == 0.
Proof. reflexivity. Qed.

Lemma ilog2_Z_bounds z :
  (0 < z < 2 ^ 53)%Z -> (0 <= ilog2 (inject_Z z) <= 52)%Z.
Proof.
  intros [Hlo Hhi].
  assert (Hz : 0 < inject_Z z) by (change 0 with (inject_Z 0); rewrite <- Zlt_Qlt; lia).
  destruct (ilog2_spec _ Hz) as [H1 H2]. split.
  - assert (Hone : inject_Z z >= 1)
      by (change 1 with (inject_Z 1); rewrite <- Zle_Qle; lia).
    destruct (Z_lt_le_dec (ilog2 (inject_Z z)) 0) as [Hneg |]; [| assumption].
    exfalso. assert (Hp : pow2 (ilog2 (inject_Z z) + 1) <= pow2 0) by (apply pow2_le; lia).
    change (pow2 0) with 1 in Hp. lra.
  - destruct (Z_lt_le_dec 52 (ilog2 (inject_Z z))) as [Hbig |]; [| lia].
    exfalso. assert (Hp : pow2 53 <= pow2 (ilog2 (inject_Z z))) by (apply pow2_le; lia).
    rewrite (pow2_Z 53) in Hp by lia.
    assert (Hc : inject_Z (2 ^ 53) <= inject_Z z) by lra.
    rewrite <- Zle_Qle in Hc. lia.
Qed.

Lemma round_pos_Z z : (0 < z < 2 ^ 53)%Z -> round_pos (inject_Z z) == inject_Z z.
Proof.
  intros Hz. pose proof (ilog2_Z_bounds z Hz) as He.
  rewrite round_pos_round_at. unfold ulp_exponent.
  replace (Z.max (ilog2 (inject_Z z)) (-1022)) with (ilog2 (inject_Z z)) by lia.
  set (ex := (ilog2 (inject_Z z) - 52)%Z).
  apply (round_at_fix ex _ (z * 2 ^ (0 - ex))).
  rewrite inject_Z_mult, <- Qmult_assoc, <- pow2_multiple by (unfold ex; lia).
  change (pow2 0) with 1. ring.
Qed.

Lemma binary64_round_Z z :
  (- 2 ^ 53 < z < 2 ^ 53)%Z -> binary64_round (inject_Z z) == inject_Z z.
Proof.
  intros Hz. unfold binary64_round.
  destruct (Qcompare_spec (inject_Z z) 0) as [H0 | Hneg | Hpos].
  - symmetry. exact H0.
  - change 0 with (inject_Z 0) in Hneg. rewrite <- Zlt_Qlt in Hneg.
    rewrite <- inject_Z_opp, round_pos_Z by lia.
    rewrite inject_Z_opp. ring.
  - change 0 with (inject_Z 0) in Hpos. rewrite <- Zlt_Qlt in Hpos.
    apply round_pos_Z. lia.
Qed.


Lemma py_int_nonneg (x : Q) : 0 <= x -> py_int x = Qfloor x.
Proof.
  destruct x as [n d]. unfold Qle, py_int, Qfloor. simpl. intros Hn.
  apply Z.quot_div_nonneg; lia.
Qed.

Lemma py_int_nonpos (x : Q) : x <= 0 -> py_int x = Qceiling x.
Proof.
  destruct x as [n d]. unfold Qle, py_int, Qceiling, Qfloor. simpl. intros Hn.
  rewrite <- (Z.opp_involutive n) at 1.
  rewrite Z.quot_opp_l by lia. f_equal. apply Z.quot_div_nonneg; lia.
Qed.

Lemma py_int_mono (x y : Q) : x <= y -> (py_int x <= py_int y)%Z.
Proof.
  intros Hxy.
  destruct (Qlt_le_dec x 0) as [Hx|Hx]; destruct (Qlt_le_dec y 0) as [Hy|Hy].
  - rewrite !py_int_nonpos by (apply Qlt_le_weak; assumption).
    apply Qceiling_resp_le; assumption.
  - rewrite (py_int_nonpos x) by (apply Qlt_le_weak; assumption).
    rewrite (py_int_nonneg y) by assumption.
    transitivity 0%Z.
    + change 0%Z with (Qceiling 0). apply Qceiling_resp_le. apply Qlt_le_weak; assumption.
    + change 0%Z with (Qfloor 0). apply Qfloor_resp_le; assumption.
  - exfalso. lra.
  - rewrite !py_int_nonneg by assumption. apply Qfloor_resp_le; assumption.
Qed.

Lemma py_int_proper x y : x == y -> py_int x = py_int y.
Proof.
  intros Heq. apply Z.le_antisymm; apply py_int_mono; rewrite Heq; apply Qle_refl.
Qed.

Lemma py_int_Z z : py_int (inject_Z z) = z.
Proof. unfold py_int. simpl. apply Z.quot_1_r. Qed.

Lemma Qeq_bool_inject x z : x == inject_Z z -> Qeq_bool x 0 = (z =? 0)%Z.
Proof.
  intros Hx. destruct (Z.eqb_spec z 0) as [-> | Hne].
  - apply Qeq_bool_iff. exact Hx.
  - destruct (Qeq_bool x 0) eqn:E; [| reflexivity].
    apply Qeq_bool_iff in E. rewrite Hx in E.
    exfalso. apply Hne. apply (proj1 (inject_Z_injective z 0)). exact E.
Qed.

Lemma Qltb_spec x y : Qltb x y = true <-> x < y.
Proof.
  unfold Qltb. destruct (Qle_bool y x) eqn:E; simpl.
  - apply Qle_bool_iff in E. split; [discriminate | intros H; exfalso; lra].
  - split; [intros _ | reflexivity].
    apply Qnot_le_lt. intros H. apply Qle_bool_iff in H. congruence.
Qed.

Lemma Qltb_false x y : Qltb x y = false <-> y <= x.
Proof.
  unfold Qltb. destruct (Qle_bool y x) eqn:E; simpl.
  - apply Qle_bool_iff in E. split; [intros _; exact E | reflexivity].
  - split; [discriminate |]. intros H. apply Qle_bool_iff in H. congruence.
Qed.

(** Floor division of integers, from truncated division. *)
Lemma Zdiv_from_quot (s b : Z) :
  (0 < b)%Z ->
  (s / b = if Z.rem s b <? 0 then Z.quot s b - 1 else Z.quot s b)%Z.
Proof.
  intros Hb. pose proof (Z.quot_rem' s b) as Hqr.
  pose proof (Z.rem_bound_abs s b ltac:(lia)) as Habs.
  destruct (Z.ltb_spec (Z.rem s b) 0) as [Hneg | Hpos].
  - symmetry. apply (Z.div_unique_pos s b _ (Z.rem s b + b)); lia.
  - symmetry. apply (Z.div_unique_pos s b _ (Z.rem s b)); lia.
Qed.

Lemma Qltb_inject x z : x == inject_Z z -> Qltb x 0 = (z <? 0)%Z.
Proof.
  intros Hx. destruct (Z.ltb_spec z 0) as [Hlt | Hge].
  - apply Qltb_spec. rewrite Hx. change 0 with (inject_Z 0).
    rewrite <- Zlt_Qlt. exact Hlt.
  - apply Qltb_false. rewrite Hx. change 0 with (inject_Z 0).
    rewrite <- Zle_Qle. exact Hge.
Qed.

Lemma snap_quotient_Z div d : div == inject_Z d -> snap_quotient div == inject_Z d.
Proof.
  intros Hd. unfold snap_quotient. rewrite (Qeq_bool_inject _ _ Hd).
  destruct (Z.eqb_spec d 0) as [-> | Hne]; simpl; [reflexivity |].
  assert (Hfl : Qfloor div = d) by (rewrite Hd; apply Qfloor_Z).
  rewrite Hfl.
  assert (Hz : binary64_round (div - inject_Z d) == 0).
  { rewrite (binary64_round_proper _ 0); [reflexivity |]. rewrite Hd. ring. }
  assert (Hb : Qltb (1 # 2) (binary64_round (div - inject_Z d)) = false).
  { apply Qltb_false. rewrite Hz. discriminate. }
  rewrite Hb. reflexivity.
Qed.

Lemma snap_quotient_nonneg div : 0 <= div -> 0 <= snap_quotient div.
Proof.
  intros Hd. unfold snap_quotient.
  destruct (negb (Qeq_bool div 0)); [| apply Qle_refl].
  assert (Hfl : 0 <= inject_Z (Qfloor div)).
  { change 0 with (inject_Z 0). rewrite <- Zle_Qle.
    change 0%Z with (Qfloor 0). apply Qfloor_resp_le. exact Hd. }
  destruct (Qltb _ _); [| exact Hfl].
  rewrite <- binary64_round_0. apply binary64_round_mono. lra.
Qed.

Lemma snap_quotient_nonpos div : div <= 0 -> snap_quotient div <= 0.
Proof.
  intros Hd. unfold snap_quotient.
  destruct (Qeq_bool div 0) eqn:E; simpl; [apply Qle_refl |].
  apply Qeq_bool_neq in E.
  assert (Hfl : (Qfloor div <= -1)%Z).
  { assert (Hlt : div < 0).
    { apply Qnot_le_lt. intros Hge. apply E. apply Qle_antisym; assumption. }
    pose proof (Qfloor_le div) as Hle.
    destruct (Z_lt_le_dec (Qfloor div) 0) as [Hneg | Hnn]; [lia |].
    exfalso. rewrite (Zle_Qle 0 (Qfloor div)) in Hnn.
    change (inject_Z 0) with 0 in Hnn. lra. }
  assert (HflQ : inject_Z (Qfloor div) <= -1).
  { change (-1) with (inject_Z (-1)). rewrite <- Zle_Qle. exact Hfl. }
  destruct (Qltb _ _).
  - rewrite <- binary64_round_0. apply binary64_round_mono. lra.
  - lra.
Qed.

Lemma fmod_nonneg vx :
  0 <= vx -> 0 <= fmod vx 60 /\ 0 <= vx - fmod vx 60.
Proof.
  intros Hx. unfold fmod.
  assert (Hq : 0 <= vx / 60) by (apply Qle_shift_div_l; [reflexivity | lra]).
  rewrite (py_int_nonneg _ Hq).
  pose proof (Qfloor_le (vx / 60)) as Hle.
  assert (Hfl : 0 <= inject_Z (Qfloor (vx / 60))).
  { change 0 with (inject_Z 0). rewrite <- Zle_Qle.
    change 0%Z with (Qfloor 0). apply Qfloor_resp_le. exact Hq. }
  assert (Hmul : 60 * inject_Z (Qfloor (vx / 60)) <= vx).
  { apply Qle_trans with (60 * (vx / 60)).
    - apply Qmult_le_l; [reflexivity | exact Hle].
    - apply Qle_lteq. right. field. }
  split; lra.
Qed.

Lemma fmod_nonpos vx :
  vx <= 0 -> fmod vx 60 <= 0 /\ vx - fmod vx 60 <= 0.
Proof.
  intros Hx. unfold fmod.
  assert (Hq : vx / 60 <= 0) by (apply Qle_shift_div_r; [reflexivity | lra]).
  rewrite (py_int_nonpos _ Hq).
  pose proof (Qle_ceiling (vx / 60)) as Hle.
  assert (Hfl : inject_Z (Qceiling (vx / 60)) <= 0).
  { change 0 with (inject_Z 0). rewrite <- Zle_Qle.
    change 0%Z with (Qceiling 0). apply Qceiling_resp_le. exact Hq. }
  assert (Hmul : vx <= 60 * inject_Z (Qceiling (vx / 60))).
  { apply Qle_trans with (60 * (vx / 60)).
    - apply Qle_lteq. right. field.
    - apply Qmult_le_l; [reflexivity | exact Hle]. }
  split; lra.
Qed.

Lemma float_floordiv_nonneg vx : 0 <= vx -> 0 <= float_floordiv vx 60.
Proof.
  intros Hx. destruct (fmod_nonneg vx Hx) as [Hm Hd].
  unfold float_floordiv. apply snap_quotient_nonneg.
  assert (Hdiv : 0 <= binary64_round (binary64_round (vx - fmod vx 60) / 60)).
  { rewrite <- binary64_round_0 at 1. apply binary64_round_mono.
    apply Qle_shift_div_l; [reflexivity |]. rewrite Qmult_0_l.
    rewrite <- binary64_round_0. apply binary64_round_mono. exact Hd. }
  assert (Hlt : Qltb (fmod vx 60) 0 = false) by (apply Qltb_false; exact Hm).
  rewrite Hlt. change (Qltb 60 0) with false. simpl.
  rewrite andb_false_r. exact Hdiv.
Qed.

Lemma float_floordiv_nonpos vx : vx <= 0 -> float_floordiv vx 60 <= 0.
Proof.
  intros Hx. destruct (fmod_nonpos vx Hx) as [Hm Hd].
  unfold float_floordiv. apply snap_quotient_nonpos.
  assert (Hdiv : binary64_round (binary64_round (vx - fmod vx 60) / 60) <= 0).
  { rewrite <- binary64_round_0. apply binary64_round_mono.
    apply Qle_shift_div_r; [reflexivity |]. rewrite Qmult_0_l.
    rewrite <- binary64_round_0. apply binary64_round_mono. exact Hd. }
  destruct (_ && _); [| exact Hdiv].
  rewrite <- binary64_round_0. apply binary64_round_mono. lra.
Qed.

Lemma float_floordiv_Z vx s :
  vx == inject_Z s -> (- 2 ^ 53 < s < 2 ^ 53)%Z ->
  float_floordiv vx 60 == inject_Z (s / 60).
Proof.
  intros Hx Hs.
  pose proof (Z.quot_rem' s 60) as Hqr.
  pose proof (Z.rem_bound_abs s 60 ltac:(lia)) as Habs.
  assert (Hsign : (0 <= s -> 0 <= Z.rem s 60)%Z)
    by (intros; apply Z.rem_nonneg; lia).
  assert (Hsign' : (s <= 0 -> Z.rem s 60 <= 0)%Z)
    by (intros; apply Z.rem_nonpos; lia).
  set (q := Z.quot s 60) in *. set (r := Z.rem s 60) in *.
  assert (Hq : py_int (vx / 60) = q).
  { rewrite (py_int_proper _ (inject_Z s / 60)) by (rewrite Hx; reflexivity).
    unfold py_int. simpl. rewrite Z.mul_1_r. reflexivity. }
  assert (Hmd : fmod vx 60 == inject_Z r).
  { unfold fmod. rewrite Hq, Hx.
    replace r with (s - 60 * q)%Z by lia.
    unfold Zminus. rewrite inject_Z_plus, inject_Z_opp, inject_Z_mult. ring. }
  assert (Hdiff : binary64_round (vx - fmod vx 60) == inject_Z (60 * q)).
  { rewrite (binary64_round_proper _ (inject_Z (60 * q))).
    - apply binary64_round_Z. lia.
    - rewrite Hmd, Hx. replace (60 * q)%Z with (s - r)%Z by lia.
      unfold Zminus. rewrite inject_Z_plus, inject_Z_opp. ring. }
  assert (Hdiv : binary64_round (binary64_round (vx - fmod vx 60) / 60)
                 == inject_Z q).
  { rewrite (binary64_round_proper _ (inject_Z q)).
    - apply binary64_round_Z. lia.
    - rewrite Hdiff, inject_Z_mult. field. }
  unfold float_floordiv. apply snap_quotient_Z.
  rewrite (Qeq_bool_inject _ _ Hmd), (Qltb_inject _ _ Hmd).
  change (Qltb 60 0) with false.
  rewrite (Zdiv_from_quot s 60) by lia. fold q r.
  destruct (Z.ltb_spec r 0) as [Hneg | Hpos].
  - replace (r =? 0)%Z with false by (symmetry; apply Z.eqb_neq; lia). simpl.
    rewrite (binary64_round_proper _ (inject_Z (q - 1))).
    + apply binary64_round_Z. lia.
    + rewrite Hdiv. unfold Zminus. rewrite inject_Z_plus. reflexivity.
  - simpl. rewrite andb_false_r. exact Hdiv.
Qed.

End Binary64.

(** ** The model against the kernel's floats *)

(** Quotients of integers: the model rounds them as the kernel's division
    and as the specification of binary64 do. *)
Example model_div_agrees :
  forallb (fun '(a, b) => float_eqb (kernel_div a b) (model_div a b)
                          && float_eqb (spec_div a b) (model_div a b))
    [(1, 10); (7, 10); (57, 100); (1, 3); (2, 3); (-1, 3); (-2, 3); (0, 7);
     (9007199254740991, 3); (1, 9007199254740991); (-9007199254740991, 7);
     (5404319552844595, 3); (3600000001, 1000000); (-59999999, 1000000);
     (18000000029999, 1000); (9007199254740991, 9007199254740990)]
  = true.
Proof. vm_compute. reflexivity. Qed.

(** The literals of the examples are the floats the kernel computes. *)
Example float_literals_agree :
  float_eqb (kernel_div 1 10) float_0_1
  && float_eqb (kernel_div 7 10) float_0_7
  && float_eqb (kernel_div 57 100) float_0_57
  = true.
Proof. vm_compute. reflexivity. Qed.

(** Products of floats. *)
Example model_mul_agrees :
  forallb (fun '(a, b, c, d) => float_eqb (kernel_mul a b c d) (model_mul a b c d))
    [(10, 1, 7, 10); (100, 1, 57, 100); (60, 1, 1, 10); (-1, 1, 1, 2);
     (1, 3, 1, 3); (-2, 3, 7, 10); (9007199254740991, 1, 9007199254740991, 1);
     (1, 9007199254740991, 1, 3); (0, 1, -7, 10);
     (328307880, 1, 9007199254740991, 9007199254740992)]
  = true.
Proof. vm_compute. reflexivity. Qed.

(** The ends of the range: the smallest subnormal, ties to even below it,
    the largest float, and overflow to infinity. *)
Example model_ldexp_agrees :
  forallb (fun '(m, e) => float_eqb (kernel_ldexp m e) (model_ldexp m e))
    [(1, -1074); (1, -1075); (3, -1075); (5, -1076); (-3, -1075); (1, -1080);
     (9007199254740991, -1075); (9007199254740991, -1127);
     (9007199254740991, 971); (1, 1023); (1, 1024); (-1, 1024);
     (9007199254740991, 972)]
  = true.
Proof. vm_compute. reflexivity. Qed.

(** [total_seconds()] divides integers that may exceed [2^53]: on the
    intervals of the counterexamples it is the quotient the specification
    of binary64 division gives. *)
Example total_seconds_agrees :
  forallb (fun td => float_eqb (spec_div td 1000000) (Finite (total_seconds td)))
    [-18000000029999999; 19698472799999999; 3600000000; -60000000; 90000000;
     1; -1; 59999999; 315537897599999999; -315537897599999999]
  = true.
Proof. vm_compute. reflexivity. Qed.

Section Minutes.

Lemma py_int_0_le (x : Q) : (0 <= x)%Q -> 0 <= py_int x.
Proof.
  intros Hx. pose proof (py_int_mono 0 x Hx) as H. by vm_compute (py_int 0) in H.
Qed.

Lemma py_int_le_0 (x : Q) : (x <= 0)%Q -> py_int x <= 0.
Proof.
  intros Hx. pose proof (py_int_mono x 0 Hx) as H. by vm_compute (py_int 0) in H.
Qed.

Lemma two_53 : 2 ^ 53 = 9007199254740992.
Proof. reflexivity. Qed.

Lemma whole_minutes_bound (sec : Z) :
  - 2 ^ 53 < sec < 2 ^ 53 ->
  - 2 ^ 53 < sec * 1000000 / 60000000 < 2 ^ 53.
Proof.
  intros Hsec. change 60000000 with (60 * 1000000).
  rewrite Z.div_mul_cancel_r by lia. rewrite two_53 in *.
  pose proof (Z.div_le_mono (-9007199254740992) sec 60 ltac:(lia) ltac:(lia)).
  pose proof (Z.div_le_mono sec 9007199254740992 60 ltac:(lia) ltac:(lia)).
  change (-9007199254740992 / 60) with (-150119987579017) in *.
  change (9007199254740992 / 60) with 150119987579016 in *. lia.
Qed.

Lemma total_seconds_whole (sec : Z) :
  - 2 ^ 53 < sec < 2 ^ 53 ->
  (total_seconds (sec * 1000000) == inject_Z sec)%Q.
Proof.
  intros Hsec. unfold total_seconds.
  rewrite (binary64_round_proper _ (inject_Z sec)).
  - by apply binary64_round_Z.
  - rewrite inject_Z_mult. by field.
Qed.

(** On a timedelta of whole seconds the minutes are the exact floor. *)
Lemma minutes_float_whole (sec : Z) :
  - 2 ^ 53 < sec < 2 ^ 53 ->
  (minutes_float (sec * 1000000) == inject_Z (sec * 1000000 / 60000000))%Q.
Proof.
  intros Hsec. unfold minutes_float.
  rewrite (float_floordiv_Z _ sec (total_seconds_whole sec Hsec) Hsec).
  change 60000000 with (60 * 1000000).
  by rewrite Z.div_mul_cancel_r by lia.
Qed.


Lemma whole_second_difference (t1 t2 : datetime) :
  whole_second t1 -> whole_second t2 ->
  exists sec : Z, t2 - t1 = sec * 1000000 /\ - 2 ^ 53 < sec < 2 ^ 53.
Proof.
  intros (s1 & -> & Hs1) (s2 & -> & Hs2). exists (s2 - s1).
  rewrite two_53. lia.
Qed.



Lemma total_seconds_nonneg (td : Z) : 0 <= td -> (0 <= total_seconds td)%Q.
Proof.
  intros Htd. unfold total_seconds.
  rewrite <- binary64_round_0 at 1. apply binary64_round_mono.
  apply Qle_shift_div_l; [reflexivity |]. rewrite Qmult_0_l.
  change 0%Q with (inject_Z 0). by rewrite <- Zle_Qle.
Qed.

Lemma total_seconds_nonpos (td : Z) : td <= 0 -> (total_seconds td <= 0)%Q.
Proof.
  intros Htd. unfold total_seconds.
  rewrite <- binary64_round_0. apply binary64_round_mono.
  apply Qle_shift_div_r; [reflexivity |]. rewrite Qmult_0_l.
  change 0%Q with (inject_Z 0). by rewrite <- Zle_Qle.
Qed.

Lemma minutes_float_nonneg (td : Z) : 0 <= td -> (0 <= minutes_float td)%Q.
Proof. intros. by apply float_floordiv_nonneg, total_seconds_nonneg. Qed.

Lemma minutes_float_nonpos (td : Z) : td <= 0 -> (minutes_float td <= 0)%Q.
Proof. intros. by apply float_floordiv_nonpos, total_seconds_nonpos. Qed.

Lemma minutes_of_nonneg (td : Z) : 0 <= td -> 0 <= minutes_of td.
Proof. intros. by apply py_int_0_le, minutes_float_nonneg. Qed.

Lemma minutes_of_nonpos (td : Z) : td <= 0 -> minutes_of td <= 0.
Proof. intros. by apply py_int_le_0, minutes_float_nonpos. Qed.

End Minutes.

Section Threshold.

Variables ws we : datetime.

Implicit Types (f : Q) (t : Z).

Lemma threshold_Finite f :
  minimum_minutes_threshold ws we (Finite f)
  = if Qle_bool (pow2 1024)
         (Qabs (binary64_round (minutes_float (we - ws) * f)))
    then Raise OverflowError
    else Ok (py_int (binary64_round (minutes_float (we - ws) * f))).
Proof.
  unfold minimum_minutes_threshold, float_mul, float_of_rounded.
  by destruct (Qle_bool _ _).
Qed.

Lemma threshold_Ok f t :
  minimum_minutes_threshold ws we (Finite f) = Ok t ->
  t = py_int (binary64_round (minutes_float (we - ws) * f)).
Proof. rewrite threshold_Finite. destruct (Qle_bool _ _); congruence. Qed.

Lemma threshold_Raise f (err : exn) :
  minimum_minutes_threshold ws we (Finite f) = Raise err -> err = OverflowError.
Proof. rewrite threshold_Finite. destruct (Qle_bool _ _); congruence. Qed.

(** With a window that does not end before it starts, a larger fraction
    gives a threshold at least as large. *)
Lemma threshold_mono f1 f2 t1 t2 :
  ws <= we -> (f1 <= f2)%Q ->
  minimum_minutes_threshold ws we (Finite f1) = Ok t1 ->
  minimum_minutes_threshold ws we (Finite f2) = Ok t2 ->
  t1 <= t2.
Proof.
  intros Hw Hf ->%threshold_Ok ->%threshold_Ok.
  apply py_int_mono, binary64_round_mono.
  rewrite !(Qmult_comm (minutes_float _)). apply Qmult_le_compat_r; [done |].
  apply minutes_float_nonneg. lia.
Qed.

(** With a window that does not end after it starts and a fraction that is
    not negative, the threshold is at most zero. *)
Lemma threshold_nonpos f t :
  we <= ws -> (0 <= f)%Q ->
  minimum_minutes_threshold ws we (Finite f) = Ok t -> t <= 0.
Proof.
  intros Hw Hf ->%threshold_Ok. apply py_int_le_0.
  rewrite <- binary64_round_0. apply binary64_round_mono.
  pose proof (minutes_float_nonpos (we - ws) ltac:(lia)) as Hm.
  rewrite <- (Qmult_0_l f). by apply Qmult_le_compat_r.
Qed.

(** Between whole seconds, a fraction between -1 and 1 cannot make the
    product overflow. *)
Lemma threshold_returns f :
  whole_second ws -> whole_second we -> (-1 <= f)%Q -> (f <= 1)%Q ->
  is_Ok (minimum_minutes_threshold ws we (Finite f)).
Proof.
  intros Hws Hwe Hlo Hhi.
  destruct (whole_second_difference ws we Hws Hwe) as (sec & Hdiff & Hsec).
  rewrite threshold_Finite, Hdiff.
  pose proof (minutes_float_whole sec Hsec) as Hm.
  set (m := sec * 1000000 / 60000000) in *.
  pose proof (whole_minutes_bound sec Hsec) as Hmb. fold m in Hmb.
  set (r := binary64_round (minutes_float (sec * 1000000) * f)).
  assert (Hr : (Qabs r <= inject_Z (Z.abs m))%Q).
  { apply Qabs_Qle_condition.
    assert (Habs : (Qabs (minutes_float (sec * 1000000) * f)
                    <= inject_Z (Z.abs m))%Q).
    { rewrite Qabs_Qmult, Hm, <- (Qmult_1_r (inject_Z (Z.abs m))).
      change (inject_Z (Z.abs m)) with (Qabs (inject_Z m)).
      apply Qmult_le_compat_nonneg.
      - split; [apply Qabs_nonneg | apply Qle_refl].
      - split; [apply Qabs_nonneg | by apply Qabs_Qle_condition]. }
    apply Qabs_Qle_condition in Habs as [Habs1 Habs2].
    split.
    - rewrite <- inject_Z_opp.
      rewrite <- (binary64_round_Z (- Z.abs m)) by lia.
      apply binary64_round_mono. by rewrite inject_Z_opp.
    - rewrite <- (binary64_round_Z (Z.abs m)) by lia.
      by apply binary64_round_mono. }
  destruct (Qle_bool (pow2 1024) (Qabs r)) eqn:E; [| by eexists].
  exfalso. apply Qle_bool_iff in E.
  assert (Hbig : (inject_Z (Z.abs m) < pow2 1024)%Q).
  { apply Qlt_le_trans with (pow2 53); [| apply pow2_le; lia].
    rewrite (pow2_Z 53) by lia. rewrite <- Zlt_Qlt. lia. }
  apply (Qlt_irrefl (pow2 1024)).
  eapply Qle_lt_trans; [exact E |]. eapply Qle_lt_trans; [exact Hr | exact Hbig].
Qed.

End Threshold.

Section Accumulation.

Variables ws we : datetime.

Implicit Types (d : list (string * Z)) (a : InMeetingActivity) (e : string).

Lemma accumulate_step_keys d a :
  (accumulate_step ws we d a).*1
  = if dict_contains d (email a) then d.*1 else d.*1 ++ [email a].
Proof.
  unfold accumulate_step. rewrite dict_keys_iadd.
  destruct (dict_contains d (email a)) eqn:E; simpl; [done |].
  rewrite dict_keys_setitem. by rewrite E.
Qed.

Lemma accumulate_step_lookup d a e :
  dict_lookup (accumulate_step ws we d a) e
  = if decide (e = email a)
    then Some (default 0 (dict_lookup d e) + activity_minutes ws we a)
    else dict_lookup d e.
Proof.
  unfold accumulate_step.
  set (d' := if negb (dict_contains d (email a))
             then dict_setitem d (email a) 0 else d).
  set (c := match (if bool_decide (we <= join_time a) then IntZero
                   else Datetime (ws `max` leave_time a)) with
            | IntZero => 0
            | Datetime st => minutes_of (we `min` join_time a - st)
            end).
  assert (Hc : c = activity_minutes ws we a).
  { unfold c, activity_minutes. by case_bool_decide. }
  assert (Hk : dict_lookup d' (email a)
               = Some (default 0 (dict_lookup d (email a)))).
  { unfold d', dict_contains.
    destruct (dict_lookup d (email a)) eqn:E; simpl; [done |].
    apply dict_lookup_setitem_eq. }
  assert (Hother : forall e', e' <> email a -> dict_lookup d' e' = dict_lookup d e').
  { intros e' Hne. unfold d'.
    destruct (negb _); [by apply dict_lookup_setitem_ne | done]. }
  unfold dict_iadd. rewrite Hk, Hc.
  destruct (decide (e = email a)) as [->|Hne].
  - apply dict_lookup_setitem_eq.
  - rewrite dict_lookup_setitem_ne by done. by apply Hother.
Qed.


Lemma activity_minutes_nonpos a :
  join_time a <= leave_time a -> activity_minutes ws we a <= 0.
Proof.
  intros Hwf. unfold activity_minutes. case_bool_decide; [done |].
  apply minutes_of_nonpos. lia.
Qed.

Lemma total_minutes_cons e a acts :
  total_minutes ws we e (a :: acts)
  = (if decide (email a = e) then activity_minutes ws we a else 0)
    + total_minutes ws we e acts.
Proof.
  unfold total_minutes. rewrite filter_cons.
  destruct (decide (email a = e)); [done |]. lia.
Qed.

Lemma total_minutes_notin e acts :
  e ∉ email <$> acts -> total_minutes ws we e acts = 0.
Proof.
  induction acts as [|a acts IH]; csimpl; [done |].
  intros [Hne Hn]%not_elem_of_cons. rewrite total_minutes_cons.
  rewrite decide_False by done. by rewrite IH.
Qed.

Lemma foldl_accumulate_lookup acts d e :
  dict_lookup (foldl (accumulate_step ws we) d acts) e
  = if decide (e ∈ email <$> acts)
    then Some (default 0 (dict_lookup d e) + total_minutes ws we e acts)
    else dict_lookup d e.
Proof.
  revert d. induction acts as [|a acts IH]; intros d; csimpl.
  - reflexivity.
  - rewrite IH, total_minutes_cons, accumulate_step_lookup.
    clear IH. pose proof (total_minutes_notin e acts) as Hzero.
    repeat case_decide; simplify_eq/=;
      try (rewrite Hzero by done); try (f_equal; lia);
      exfalso; set_solver.
Qed.

(** The mapping holds, for each participant seen, the sum of what the
    participant's activities add. *)
Lemma participant_time_mapping_lookup acts e :
  dict_lookup (participant_time_mapping acts ws we) e
  = if decide (e ∈ email <$> acts)
    then Some (total_minutes ws we e acts)
    else None.
Proof.
  unfold participant_time_mapping. rewrite foldl_accumulate_lookup. simpl.
  destruct (decide _); [f_equal; lia | done].
Qed.

Lemma participant_time_mapping_snoc acts a :
  participant_time_mapping (acts ++ [a]) ws we
  = accumulate_step ws we (participant_time_mapping acts ws we) a.
Proof. unfold participant_time_mapping. by rewrite foldl_snoc. Qed.

Lemma participant_time_mapping_elem_of acts e :
  e ∈ (participant_time_mapping acts ws we).*1 <-> e ∈ email <$> acts.
Proof.
  destruct (decide (e ∈ (participant_time_mapping acts ws we).*1)) as [Hin|Hnin].
  - split; [intros _ | done].
    apply dict_contains_true in Hin. unfold dict_contains in Hin.
    rewrite participant_time_mapping_lookup in Hin. by destruct (decide _).
  - split; [done | intros Hin]. apply dict_lookup_None in Hnin.
    rewrite participant_time_mapping_lookup, decide_True in Hnin; done.
Qed.

(** The keys of the mapping are in order of first appearance. *)
Lemma participant_time_mapping_keys_sorted acts :
  StronglySorted (appears_before (email <$> acts))
    (participant_time_mapping acts ws we).*1.
Proof.
  induction acts as [|a acts IH] using rev_ind; [constructor |].
  rewrite participant_time_mapping_snoc, accumulate_step_keys, fmap_app.
  pose proof (participant_time_mapping_elem_of acts) as Hdom.
  assert (Hmono : StronglySorted (appears_before ((email <$> acts) ++ [email a]))
                    (participant_time_mapping acts ws we).*1).
  { eapply StronglySorted_impl_elem_of; [| exact IH].
    intros x y Hx Hy. apply appears_before_app; by apply Hdom. }
  destruct (dict_contains _ (email a)) eqn:E; [done |].
  apply StronglySorted_app. split_and!; [| done | repeat constructor].
  intros x1 x2 Hx1 ->%list_elem_of_singleton. csimpl.
  apply appears_before_snoc_fresh; [by apply Hdom |].
  rewrite <- Hdom. intros Hin%dict_contains_true. congruence.
Qed.

Lemma participant_time_mapping_NoDup acts :
  NoDup (participant_time_mapping acts ws we).*1.
Proof.
  eapply StronglySorted_irrefl_NoDup;
    [apply appears_before_irrefl | apply participant_time_mapping_keys_sorted].
Qed.

End Accumulation.

Section Qualification.

Variables ws we : datetime.

Implicit Types (acts : list InMeetingActivity) (e : string) (pct : float)
  (thr : Z).

Lemma foldl_qualify_step thr (acc : list string) (d : list (string * Z)) :
  foldl (qualify_step thr) acc d
  = acc ++ (filter (fun it => thr <= it.2) d).*1.
Proof.
  revert acc. induction d as [|[k t] d IH]; intros acc; csimpl.
  - by rewrite app_nil_r.
  - rewrite IH, filter_cons. simpl. case_bool_decide.
    + rewrite decide_True by done. csimpl. by rewrite <- app_assoc.
    + by rewrite decide_False by done.
Qed.

(** After the second loop an email is listed exactly when it appears in
    the activities and the total of what its activities add reaches the
    threshold. *)
Lemma elem_of_qualified thr acts e :
  e ∈ foldl (qualify_step thr) [] (participant_time_mapping acts ws we)
  <-> e ∈ email <$> acts /\ thr <= total_minutes ws we e acts.
Proof.
  rewrite foldl_qualify_step, app_nil_l, list_elem_of_fmap.
  pose proof (participant_time_mapping_NoDup ws we acts) as Hnd.
  pose proof (participant_time_mapping_lookup ws we acts e) as Hl.
  split.
  - intros ([k t] & -> & [Hthr Hin]%list_elem_of_filter). simpl in *.
    apply dict_lookup_elem_of in Hin; [| done]. rewrite Hin in Hl.
    destruct (decide _); [| done]. by injection Hl as ->.
  - intros [Hin Hthr]. rewrite decide_True in Hl by done.
    exists (e, total_minutes ws we e acts). split; [done |].
    apply list_elem_of_filter. split; [done |]. by apply dict_lookup_elem_of.
Qed.

Lemma qualified_sorted thr acts :
  StronglySorted (appears_before (email <$> acts))
    (foldl (qualify_step thr) [] (participant_time_mapping acts ws we)).
Proof.
  rewrite foldl_qualify_step, app_nil_l.
  apply StronglySorted_filter_keys, participant_time_mapping_keys_sorted.
Qed.

Lemma get_qualified_participants_Ok acts pct (l : list string) :
  get_qualified_participants acts ws we pct = Ok l
  <-> exists thr,
        minimum_minutes_threshold ws we pct = Ok thr
        /\ l = foldl (qualify_step thr) [] (participant_time_mapping acts ws we).
Proof.
  unfold get_qualified_participants.
  destruct (minimum_minutes_threshold ws we pct) as [thr|err]; simpl.
  - split; [intros [= <-]; by exists thr | by intros (? & [= <-] & ->)].
  - split; [done | by intros (? & ? & _)].
Qed.

Lemma get_qualified_participants_Raise acts pct (err : exn) :
  get_qualified_participants acts ws we pct = Raise err
  <-> minimum_minutes_threshold ws we pct = Raise err.
Proof.
  unfold get_qualified_participants.
  destruct (minimum_minutes_threshold ws we pct) as [thr|err']; simpl;
    split; congruence.
Qed.

Lemma total_minutes_late acts e :
  (forall a, a ∈ acts -> email a = e -> we <= join_time a) ->
  total_minutes ws we e acts = 0.
Proof.
  induction acts as [|a acts IH]; intros Hlate; [done |].
  rewrite total_minutes_cons, IH.
  - destruct (decide (email a = e)) as [He|]; [| done].
    unfold activity_minutes. rewrite bool_decide_true; [done |].
    by apply (Hlate a ltac:(left) He).
  - intros a' Hin. apply Hlate. by right.
Qed.

Lemma total_minutes_nonpos e acts :
  (forall a, a ∈ acts -> join_time a <= leave_time a) ->
  total_minutes ws we e acts <= 0.
Proof.
  induction acts as [|a acts IH]; intros Hwf; [done |].
  rewrite total_minutes_cons.
  assert (total_minutes ws we e acts <= 0)
    by (apply IH; intros; apply Hwf; by right).
  pose proof (activity_minutes_nonpos ws we a (Hwf a ltac:(left))).
  destruct (decide (email a = e)); lia.
Qed.

Lemma total_minutes_Permutation e acts acts' :
  acts ≡ₚ acts' -> total_minutes ws we e acts = total_minutes ws we e acts'.
Proof.
  induction 1 as [|a l l' _ IH|a b l|l l' l'' _ IH1 _ IH2].
  - done.
  - by rewrite !total_minutes_cons, IH.
  - rewrite !total_minutes_cons. lia.
  - by rewrite IH1.
Qed.

End Qualification.

(** ** The claims about the qualification engine *)

Lemma whole_second_at_time (h m sec : Z) :
  0 <= (h * 60 + m) * 60 + sec < 86400 -> whole_second (at_time h m sec).
Proof. intros Hday. exists ((h * 60 + m) * 60 + sec). split; [done | lia]. Qed.

Lemma get_qualified_participants_returns (acts : list InMeetingActivity)
    (ws we : datetime) (f : Q) :
  whole_second ws -> whole_second we -> (-1 <= f)%Q -> (f <= 1)%Q ->
  is_Ok (get_qualified_participants acts ws we (Finite f)).
Proof.
  intros Hws Hwe Hlo Hhi.
  destruct (threshold_returns ws we f Hws Hwe Hlo Hhi) as [thr Hthr].
  eexists. apply get_qualified_participants_Ok. by exists thr.
Qed.




(** The scenario of the specification: joined 14:00, left 14:30, window
    14:00 to 15:00, fraction 0.1.  The threshold is 6, the activity adds
    -30 minutes, and nobody qualifies. *)
Example scenario_swapped_overlap :
  let acts := [activity_of "ann@example.org" (at_time 14 0 0) (at_time 14 30 0)] in
  minimum_minutes_threshold (at_time 14 0 0) (at_time 15 0 0) float_0_1 = Ok 6
  /\ participant_time_mapping acts (at_time 14 0 0) (at_time 15 0 0)
     = [("ann@example.org"%string, -30)]
  /\ get_qualified_participants acts (at_time 14 0 0) (at_time 15 0 0) float_0_1
     = Ok [].
Proof. vm_compute. done. Qed.

(** C2, as stated, fails: for a window of minus one minute and fraction
    1/2 the code computes [int(-0.5) = 0], the stated formula
    [floor(-0.5) = -1], whether the division by 60 in it is exact or
    floored. *)
Lemma threshold_not_floor :
  minimum_minutes_threshold (at_time 14 1 0) (at_time 14 0 0) (Finite (1 # 2))
  = Ok 0
  /\ threshold_as_specified (at_time 14 1 0) (at_time 14 0 0) (1 # 2) = -1
  /\ Qfloor (inject_Z ((at_time 14 0 0 - at_time 14 1 0) / 60000000) * (1 # 2))%Q
     = -1.
Proof. vm_compute. done. Qed.

(** The whole minutes of the window are taken before the product: a window
    of 90 seconds with fraction 3/4 has threshold [int(1 * 0.75) = 0], where
    [floor(1.5 * 0.75) = 1]. *)
Example threshold_floors_minutes_first :
  minimum_minutes_threshold (at_time 14 0 0) (at_time 14 1 30) (Finite (3 # 4))
  = Ok 0
  /\ threshold_as_specified (at_time 14 0 0) (at_time 14 1 30) (3 # 4) = 1.
Proof. vm_compute. done. Qed.

(** The product is rounded before it is truncated.  Ten minutes with the
    float 0.7 give [10.0 * 0.7 = 7.0] and threshold 7, where the exact
    product with that float is below 7; a hundred minutes with the float
    0.57 give [56.99999999999999] and threshold 56, where the product with
    the fraction 57/100 is 57. *)
Example threshold_rounds_product :
  minimum_minutes_threshold (at_time 14 0 0) (at_time 14 10 0) float_0_7 = Ok 7
  /\ threshold_as_specified (at_time 14 0 0) (at_time 14 10 0)
       (3152519739159347 # 4503599627370496) = 6
  /\ minimum_minutes_threshold (at_time 14 0 0) (at_time 15 40 0) float_0_57
     = Ok 56
  /\ threshold_as_specified (at_time 14 0 0) (at_time 15 40 0) (57 # 100) = 57.
Proof. vm_compute. done. Qed.

(** A product beyond the range of the floats is infinite, and [int] of it
    raises. *)
Example threshold_overflow :
  minimum_minutes_threshold (at_time 14 0 0) (at_time 14 2 0)
    (Finite (inject_Z (17 * 10 ^ 307)))
  = Raise OverflowError.
Proof. vm_compute. done. Qed.

(** C2, amended. For a finite fraction, the threshold is [int] of the
    float product of the minutes of the window with the fraction: the call
    raises OverflowError when the rounded product is beyond the floats, and
    otherwise returns the rounded product truncated toward zero, its floor
    when it is not negative and its ceiling when it is.  The minutes of the
    window are taken before the product, and between whole seconds they are
    [floor((windowEnd - windowStart) in seconds / 60)]. *)
Theorem threshold_truncates (ws we : datetime) (f : Q) :
  let product := binary64_round (minutes_float (we - ws) * f) in
  minimum_minutes_threshold ws we (Finite f)
  = (if Qle_bool (pow2 1024) (Qabs product) then Raise OverflowError
     else Ok (if Qle_bool 0 product then Qfloor product else Qceiling product))
  /\ (whole_second ws -> whole_second we ->
      (minutes_float (we - ws) == inject_Z ((we - ws) / 60000000))%Q).
Proof.
  intros product. split.
  - rewrite threshold_Finite. fold product.
    destruct (Qle_bool (pow2 1024) (Qabs product)); [done |]. f_equal.
    destruct (Qle_bool 0 product) eqn:E.
    + apply py_int_nonneg. by apply Qle_bool_iff.
    + apply py_int_nonpos. destruct (Qlt_le_dec product 0) as [Hlt|Hle].
      * by apply Qlt_le_weak.
      * apply Qle_bool_iff in Hle. congruence.
  - intros Hws Hwe.
    destruct (whole_second_difference ws we Hws Hwe) as (sec & -> & Hsec).
    by apply minutes_float_whole.
Qed.

(** C3, as stated, fails: with [windowEnd = windowStart = 14:00], a
    participant present from 13:59 to 14:00 has total -1, below the
    threshold 0. *)
Lemma empty_window_rejects_early_leaver :
  at_time 14 0 0 <= at_time 14 0 0
  /\ "ann@example.org"%string ∈ email <$> early_leaver
  /\ get_qualified_participants early_leaver (at_time 14 0 0) (at_time 14 0 0)
       (Finite (1 # 2))
     = Ok [].
Proof. split_and!; [done | apply list_elem_of_here | by vm_compute]. Qed.

(** C3, amended. If [windowEnd <= windowStart] and the fraction is not
    negative, every email in the activities all of whose activities are
    joined at or after [windowEnd] is qualified: the call returns a list
    with that email, unless the product for the threshold is beyond the
    floats and the call raises OverflowError, which it does not between
    whole seconds with a fraction of at most 1. *)
Theorem empty_window_qualifies_late_joiners (acts : list InMeetingActivity)
    (ws we : datetime) (f : Q) (e : string) :
  we <= ws -> (0 <= f)%Q ->
  e ∈ email <$> acts ->
  (forall a, a ∈ acts -> email a = e -> we <= join_time a) ->
  match get_qualified_participants acts ws we (Finite f) with
  | Ok qualified_participants => e ∈ qualified_participants
  | Raise err => err = OverflowError
  end
  /\ (whole_second ws -> whole_second we -> (f <= 1)%Q ->
      is_Ok (get_qualified_participants acts ws we (Finite f))).
Proof.
  intros Hw Hf Hin Hlate. split.
  - destruct (get_qualified_participants acts ws we (Finite f)) as [l|err] eqn:E.
    + apply get_qualified_participants_Ok in E as (thr & Hthr & ->).
      apply elem_of_qualified. split; [done |].
      rewrite total_minutes_late by done.
      exact (threshold_nonpos ws we f thr Hw Hf Hthr).
    + apply get_qualified_participants_Raise in E.
      exact (threshold_Raise ws we f err E).
  - intros Hws Hwe Hhi. apply get_qualified_participants_returns; try done.
    apply Qle_trans with 0%Q; [discriminate | done].
Qed.

Lemma empty_window_qualifies_late_joiners_witness :
  match get_qualified_participants late_joiner (at_time 14 0 0) (at_time 14 0 0)
          (Finite (1 # 2)) with
  | Ok qualified_participants => "bob@example.org"%string ∈ qualified_participants
  | Raise err => err = OverflowError
  end.
Proof.
  assert (H1 : at_time 14 0 0 <= at_time 14 0 0) by (vm_compute; discriminate).
  assert (H2 : (0 <= 1 # 2)%Q) by (vm_compute; discriminate).
  assert (H3 : "bob@example.org"%string ∈ email <$> late_joiner)
    by apply list_elem_of_here.
  assert (H4 : forall a, a ∈ late_joiner -> email a = "bob@example.org"%string ->
                         at_time 14 0 0 <= join_time a).
  { intros a Ha _. apply list_elem_of_singleton in Ha. subst a.
    vm_compute. discriminate. }
  destruct (empty_window_qualifies_late_joiners late_joiner (at_time 14 0 0)
              (at_time 14 0 0) (1 # 2) "bob@example.org" H1 H2 H3 H4) as [H _].
  exact H.
Defined.

(** C4, as stated, fails: on the window from 14:00 back to 13:58:30 a
    participant with total -2 is rejected for fraction 0 (threshold 0) and
    accepted for fraction 1 (threshold -2). *)
Lemma inverted_window_not_monotone :
  (0 < 1)%Q
  /\ get_qualified_participants short_visit (at_time 14 0 0) (at_time 13 58 30)
       (Finite 1)
     = Ok ["eve@example.org"%string]
  /\ get_qualified_participants short_visit (at_time 14 0 0) (at_time 13 58 30)
       (Finite 0)
     = Ok [].
Proof. split_and!; [reflexivity | by vm_compute | by vm_compute]. Qed.

(** C4, amended. For a window with [windowStart <= windowEnd] and fractions
    [f1 < f2], everyone qualified for [f2] is qualified for [f1]; a call
    that does not return raises OverflowError, and between whole seconds
    both calls return for fractions between -1 and 1. *)
Theorem qualified_antitone_in_fraction (acts : list InMeetingActivity)
    (ws we : datetime) (f1 f2 : Q) :
  ws <= we -> (f1 < f2)%Q ->
  match get_qualified_participants acts ws we (Finite f1),
        get_qualified_participants acts ws we (Finite f2) with
  | Ok qualified1, Ok qualified2 => qualified2 ⊆ qualified1
  | Raise err, _ => err = OverflowError
  | _, Raise err => err = OverflowError
  end
  /\ (whole_second ws -> whole_second we -> (-1 <= f1)%Q -> (f2 <= 1)%Q ->
      is_Ok (get_qualified_participants acts ws we (Finite f1))
      /\ is_Ok (get_qualified_participants acts ws we (Finite f2))).
Proof.
  intros Hw Hf. split.
  - destruct (get_qualified_participants acts ws we (Finite f1))
      as [l1|err1] eqn:E1;
      [| apply get_qualified_participants_Raise in E1;
         exact (threshold_Raise ws we f1 err1 E1)].
    destruct (get_qualified_participants acts ws we (Finite f2))
      as [l2|err2] eqn:E2;
      [| apply get_qualified_participants_Raise in E2;
         exact (threshold_Raise ws we f2 err2 E2)].
    apply get_qualified_participants_Ok in E1 as (thr1 & Hthr1 & ->).
    apply get_qualified_participants_Ok in E2 as (thr2 & Hthr2 & ->).
    intros e. rewrite !elem_of_qualified. intros [Hin Hthr]. split; [done |].
    etransitivity; [| exact Hthr].
    exact (threshold_mono ws we f1 f2 thr1 thr2 Hw (Qlt_le_weak _ _ Hf)
             Hthr1 Hthr2).
  - intros Hws Hwe Hlo Hhi.
    split; apply get_qualified_participants_returns; try done.
    + apply Qle_trans with f2; [by apply Qlt_le_weak | done].
    + apply Qle_trans with f1; [done | by apply Qlt_le_weak].
Qed.

Lemma qualified_antitone_in_fraction_witness :
  match get_qualified_participants late_joiner (at_time 13 0 0) (at_time 14 0 0)
          (Finite 0),
        get_qualified_participants late_joiner (at_time 13 0 0) (at_time 14 0 0)
          (Finite (1 # 2)) with
  | Ok qualified1, Ok qualified2 => qualified2 ⊆ qualified1
  | Raise err, _ => err = OverflowError
  | _, Raise err => err = OverflowError
  end.
Proof.
  assert (H1 : at_time 13 0 0 <= at_time 14 0 0) by (vm_compute; discriminate).
  assert (H2 : (0 < 1 # 2)%Q) by reflexivity.
  destruct (qualified_antitone_in_fraction late_joiner (at_time 13 0 0)
              (at_time 14 0 0) 0 (1 # 2) H1 H2) as [H _].
  exact H.
Defined.

(** On the window 13:00 to 14:00 the participant joining at 14:00 has total
    0: qualified for fraction 0, not for fraction 1/2 (threshold 30). *)
Example fraction_shrinks_result :
  get_qualified_participants late_joiner (at_time 13 0 0) (at_time 14 0 0)
    (Finite 0)
  = Ok ["bob@example.org"%string]
  /\ get_qualified_participants late_joiner (at_time 13 0 0) (at_time 14 0 0)
       (Finite (1 # 2))
     = Ok [].
Proof. vm_compute. done. Qed.

(** C8. The returned list has no duplicate, and its elements stand in the
    order in which they first appear as emails of the activities.  The call
    returns such a list unless computing the threshold raises, which it
    does not between whole seconds with a fraction between -1 and 1. *)
Theorem qualified_first_seen_order (acts : list InMeetingActivity)
    (ws we : datetime) (pct : float) :
  match get_qualified_participants acts ws we pct with
  | Ok qualified_participants =>
      NoDup qualified_participants
      /\ StronglySorted (appears_before (email <$> acts)) qualified_participants
      /\ qualified_participants ⊆ email <$> acts
  | Raise err => minimum_minutes_threshold ws we pct = Raise err
  end
  /\ forall f : Q,
       pct = Finite f ->
       whole_second ws -> whole_second we -> (-1 <= f)%Q -> (f <= 1)%Q ->
       is_Ok (get_qualified_participants acts ws we pct).
Proof.
  split.
  - destruct (get_qualified_participants acts ws we pct) as [l|err] eqn:E;
      [| by apply get_qualified_participants_Raise in E].
    apply get_qualified_participants_Ok in E as (thr & Hthr & ->).
    pose proof (qualified_sorted ws we thr acts) as Hs.
    split_and!; [| done |].
    + eapply StronglySorted_irrefl_NoDup; [apply appears_before_irrefl | done].
    + intros e He. by apply elem_of_qualified in He as [? _].
  - intros f -> Hws Hwe Hlo Hhi. by apply get_qualified_participants_returns.
Qed.

(** A participant seen first, then again after another one, is listed
    once, and first. *)
Example qualified_order_example :
  get_qualified_participants two_participants (at_time 14 30 0) (at_time 14 0 0)
    (Finite 0)
  = Ok ["ann@example.org"; "bob@example.org"]%string.
Proof. vm_compute. reflexivity. Qed.


(** * Properties of the section locator and the decoder *)

Section Builtins.

Context {A : Type}.

Implicit Types (l : list A) (i : Z).

Lemma getitem_nil i : getitem (@nil A) i = Raise IndexError.
Proof.
  unfold getitem. cbn [length]. change (Z.of_nat 0) with 0.
  destruct (i <? 0) eqn:E.
  - rewrite Z.add_0_r, E. done.
  - destruct (0 <=? i) eqn:E'; [by rewrite orb_true_r |].
    apply Z.ltb_ge in E. apply Z.leb_gt in E'. lia.
Qed.

Lemma getitem_nonneg l i :
  0 <= i ->
  getitem l i = match l !! Z.to_nat i with
                | Some x => Ok x
                | None => Raise IndexError
                end.
Proof.
  intros Hi. unfold getitem.
  assert (E : (i <? 0) = false) by (apply Z.ltb_ge; lia).
  rewrite !E. cbn [orb].
  destruct (Z.of_nat (length l) <=? i) eqn:E'; [| done].
  apply Z.leb_le in E'. rewrite lookup_ge_None_2; [done | lia].
Qed.

Lemma getitem_cons_0 (x : A) l : getitem (x :: l) 0 = Ok x.
Proof.
  rewrite getitem_nonneg by done. done.
Qed.

Lemma getitem_app_shift (pre l : list A) i :
  0 <= i -> getitem (pre ++ l) (Z.of_nat (length pre) + i) = getitem l i.
Proof.
  intros Hi. rewrite !getitem_nonneg by lia.
  replace (Z.to_nat (Z.of_nat (length pre) + i))
    with (length pre + Z.to_nat i)%nat by lia.
  by rewrite lookup_app_r, Nat.add_sub' by lia.
Qed.

Lemma enumerate_from_app (start : Z) (l k : list A) :
  enumerate_from start (l ++ k)
  = enumerate_from start l ++ enumerate_from (start + Z.of_nat (length l)) k.
Proof.
  revert start. induction l as [|x l IH]; intros start; simpl.
  - by rewrite Z.add_0_r.
  - rewrite IH. do 3 f_equal. lia.
Qed.

End Builtins.

Section Loops.

Context {A S : Type}.

Lemma for_in_app (xs ys : list A) (body : A -> S -> result S) (s : S) :
  for_in (xs ++ ys) body s = (s' <~ for_in xs body s ;; for_in ys body s').
Proof.
  revert s. induction xs as [|x xs IH]; intros s; simpl; [done |].
  destruct (body x s); simpl; [apply IH | done].
Qed.

Lemma for_in_ext (xs : list A) (body1 body2 : A -> S -> result S) (s : S) :
  (forall x s', x ∈ xs -> body1 x s' = body2 x s') ->
  for_in xs body1 s = for_in xs body2 s.
Proof.
  revert s. induction xs as [|x xs IH]; intros s Hext; simpl; [done |].
  rewrite Hext by left. destruct (body2 x s); simpl; [| done].
  apply IH. intros; apply Hext. by right.
Qed.

Lemma for_in_fmap {B : Type} (f : B -> A) (xs : list B)
    (body : A -> S -> result S) (s : S) :
  for_in (f <$> xs) body s = for_in xs (fun x => body (f x)) s.
Proof.
  revert s. induction xs as [|x xs IH]; intros s; csimpl; [done |].
  destruct (body (f x) s); simpl; [apply IH | done].
Qed.

End Loops.

Section Traverse.

Context {A B : Type}.

Implicit Types (g : A -> result B) (xs : list A) (ys : list B).

(** A loop that appends one decoded element per iteration is [traverse]. *)
Lemma for_in_append g xs ys :
  for_in xs (fun x acc => y <~ g x ;; Ok (acc ++ [y])) ys
  = rmap (app ys) (traverse g xs).
Proof.
  revert ys. induction xs as [|x xs IH]; intros ys; simpl.
  - unfold rmap. simpl. by rewrite app_nil_r.
  - destruct (g x) as [y|err]; simpl; [| done].
    rewrite IH. unfold rmap. destruct (traverse g xs); simpl; [| done].
    by rewrite <- app_assoc.
Qed.

Lemma traverse_Ok g xs ys :
  traverse g xs = Ok ys <-> Forall2 (fun x y => g x = Ok y) xs ys.
Proof.
  revert ys. induction xs as [|x xs IH]; intros ys; simpl.
  - split; [intros [= <-]; constructor | by intros ->%Forall2_nil_inv_l].
  - split.
    + destruct (g x) as [y|] eqn:Eg; simpl; [| done].
      destruct (traverse g xs) as [ys'|] eqn:Et; simpl; [| done].
      intros [= <-]. constructor; [done | by apply IH].
    + intros (y & ys' & Hy & Hys & ->)%Forall2_cons_inv_l.
      rewrite Hy. simpl. apply IH in Hys. by rewrite Hys.
Qed.

Lemma traverse_ext g1 g2 xs :
  (forall x, x ∈ xs -> g1 x = g2 x) -> traverse g1 xs = traverse g2 xs.
Proof.
  induction xs as [|x xs IH]; intros Hext; simpl; [done |].
  rewrite Hext by left. rewrite IH; [done |]. intros; apply Hext. by right.
Qed.

Lemma traverse_fmap {C : Type} (f : C -> A) g (zs : list C) :
  traverse g (f <$> zs) = traverse (fun z => g (f z)) zs.
Proof. induction zs as [|z zs IH]; csimpl; [done |]. by rewrite IH. Qed.

Lemma traverse_Raise g xs (err : exn) :
  traverse g xs = Raise err -> exists x, x ∈ xs /\ g x = Raise err.
Proof.
  induction xs as [|x xs IH]; simpl; [done |].
  destruct (g x) as [y|err'] eqn:Eg; simpl.
  - destruct (traverse g xs) as [ys|err'']; simpl; [done |].
    intros [= ->]. destruct (IH eq_refl) as (x' & Hin & Hx').
    exists x'. split; [by right | done].
  - intros [= ->]. exists x. split; [by left | done].
Qed.

End Traverse.

Lemma bind_Ok {A B : Type} (c : result A) (k : A -> result B) (b : B) :
  bind c k = Ok b <-> exists a, c = Ok a /\ k a = Ok b.
Proof.
  destruct c as [a|err]; simpl.
  - split; [by exists a | by intros (? & [= <-] & ?)].
  - split; [done | by intros (? & ? & ?)].
Qed.

Lemma getitem_Raise {A : Type} (l : list A) (i : Z) (err : exn) :
  getitem l i = Raise err -> err = IndexError.
Proof.
  unfold getitem. destruct (_ || _); [by intros [= <-] |].
  destruct (l !! _); [done | by intros [= <-]].
Qed.

Lemma dict_getitem_fmap `{Countable K} {V W : Type} (f : V -> W)
    (d : gmap K V) (k : K) :
  dict_getitem (f <$> d) k = rmap f (dict_getitem d k).
Proof. unfold dict_getitem. rewrite lookup_fmap. by destruct (d !! k). Qed.

Section Locator.

Variable cfg : AttendanceConfig.

Local Arguments section_index_step : simpl never.

Implicit Types (rows : list (list string)) (idx : gmap SectionHeading Z)
  (lbl : SectionHeading) (i : Z).

Lemma section_index_step_nil i idx :
  section_index_step cfg (i, []) idx = Raise IndexError.
Proof. unfold section_index_step. by rewrite getitem_nil. Qed.

Lemma section_index_step_cons i (h : string) (t : list string) idx :
  section_index_step cfg (i, h :: t) idx
  = Ok (match section_headings_mapping cfg !! h with
        | Some section_id => <[section_id := i + 2]> idx
        | None => idx
        end).
Proof.
  unfold section_index_step. rewrite getitem_cons_0. simpl.
  by destruct (section_headings_mapping cfg !! h).
Qed.

Lemma scan_total rows i idx :
  Forall (fun record => record <> []) rows ->
  is_Ok (for_in (enumerate_from i rows) (section_index_step cfg) idx).
Proof.
  revert i idx. induction rows as [|record rows IH]; intros i idx Hne; simpl.
  - by eexists.
  - apply Forall_cons in Hne as [Hrec Hne].
    destruct record as [|h t]; [done |].
    rewrite section_index_step_cons. simpl. by apply IH.
Qed.

Lemma scan_empty_row rows i idx :
  [] ∈ rows ->
  for_in (enumerate_from i rows) (section_index_step cfg) idx = Raise IndexError.
Proof.
  revert i idx. induction rows as [|record rows IH]; intros i idx Hin; simpl.
  - by apply elem_of_nil in Hin.
  - destruct record as [|h t].
    + by rewrite section_index_step_nil.
    + rewrite section_index_step_cons. simpl. apply IH.
      by apply elem_of_cons in Hin as [? | ?].
Qed.

Lemma scan_Raise rows i idx (err : exn) :
  for_in (enumerate_from i rows) (section_index_step cfg) idx = Raise err ->
  err = IndexError /\ [] ∈ rows.
Proof.
  revert i idx. induction rows as [|record rows IH]; intros i idx; simpl; [done |].
  destruct record as [|h t].
  - rewrite section_index_step_nil. simpl. intros [= <-]. split; [done | by left].
  - rewrite section_index_step_cons. simpl. intros [-> Hin]%IH.
    split; [done | by right].
Qed.

Lemma scan_lookup rows i idx0 idx lbl :
  for_in (enumerate_from i rows) (section_index_step cfg) idx0 = Ok idx ->
  idx !! lbl = match last_heading_row cfg lbl rows with
               | Some j => Some (i + Z.of_nat j + 2)
               | None => idx0 !! lbl
               end.
Proof.
  revert i idx0. induction rows as [|record rows IH]; intros i idx0; simpl.
  - by intros [= ->].
  - destruct record as [|h t].
    + by rewrite section_index_step_nil.
    + rewrite section_index_step_cons. simpl. intros Hscan.
      rewrite (IH _ _ Hscan).
      destruct (last_heading_row cfg lbl rows) as [j|]; [f_equal; lia |].
      destruct (section_headings_mapping cfg !! h) as [lbl'|] eqn:Eh.
      * destruct (decide (Some lbl' = Some lbl)) as [[= ->]|Hne].
        -- rewrite lookup_insert_eq. f_equal. lia.
        -- rewrite lookup_insert_ne by congruence. done.
      * by rewrite decide_False.
Qed.

Lemma last_heading_row_None lbl rows :
  last_heading_row cfg lbl rows = None
  <-> Forall (fun record => heading_of cfg record <> Some lbl) rows.
Proof.
  induction rows as [|record rows IH]; simpl.
  - split; [constructor | done].
  - rewrite Forall_cons, <- IH.
    destruct (last_heading_row cfg lbl rows); [naive_solver |].
    destruct (decide (heading_of cfg record = Some lbl)); naive_solver.
Qed.

Lemma last_heading_row_Some lbl rows (j : nat) :
  last_heading_row cfg lbl rows = Some j
  <-> exists before record after,
        rows = before ++ record :: after
        /\ length before = j
        /\ heading_of cfg record = Some lbl
        /\ Forall (fun r => heading_of cfg r <> Some lbl) after.
Proof.
  split.
  - revert j. induction rows as [|record rows IH]; intros j; simpl; [done |].
    destruct (last_heading_row cfg lbl rows) as [j'|] eqn:E.
    + intros [= <-].
      destruct (IH j' eq_refl) as (before & r & after & -> & Hlen & Hr & Hafter).
      exists (record :: before), r, after. simpl. by rewrite Hlen.
    + destruct (decide (heading_of cfg record = Some lbl)); [| done].
      intros [= <-]. exists [], record, rows.
      split_and!; [done | done | done | by apply last_heading_row_None].
  - intros (before & record & after & -> & <- & Hrec & Hafter).
    induction before as [|b before IH]; simpl.
    + apply last_heading_row_None in Hafter. rewrite Hafter.
      by rewrite decide_True.
    + by rewrite IH.
Qed.

(** Every offset the scan records is a row index plus two. *)
Lemma section_indexes_ge_2 rows idx lbl (o : Z) :
  _extract_section_indexes cfg rows = Ok idx -> idx !! lbl = Some o -> 2 <= o.
Proof.
  intros Hscan. rewrite (scan_lookup _ _ _ _ lbl Hscan), lookup_empty.
  destruct (last_heading_row cfg lbl rows); [| done]. intros [= <-]. lia.
Qed.

Lemma scan_unmapped rows i idx :
  Forall (fun record => exists h t, record = h :: t
                        /\ section_headings_mapping cfg !! h = None) rows ->
  for_in (enumerate_from i rows) (section_index_step cfg) idx = Ok idx.
Proof.
  revert i. induction rows as [|record rows IH]; intros i Hun; simpl; [done |].
  apply Forall_cons in Hun as [(h & t & -> & Hh) Hun].
  rewrite section_index_step_cons, Hh. simpl. by apply IH.
Qed.

Lemma scan_shift rows i (k : Z) idx :
  for_in (enumerate_from (i + k) rows) (section_index_step cfg) (Z.add k <$> idx)
  = rmap (fmap (Z.add k))
      (for_in (enumerate_from i rows) (section_index_step cfg) idx).
Proof.
  revert i idx. induction rows as [|record rows IH]; intros i idx; simpl; [done |].
  destruct record as [|h t].
  - by rewrite !section_index_step_nil.
  - rewrite !section_index_step_cons. simpl.
    replace (i + k + 1) with (i + 1 + k) by lia.
    destruct (section_headings_mapping cfg !! h) as [lbl|]; [| apply IH].
    replace (i + k + 2) with (k + (i + 2)) by lia.
    rewrite <- fmap_insert. apply IH.
Qed.

(** Rows put in front that announce no section move every offset by their
    number and change nothing else. *)
Lemma section_indexes_prepend (pre rows : list (list string)) :
  Forall (fun record => exists h t, record = h :: t
                        /\ section_headings_mapping cfg !! h = None) pre ->
  _extract_section_indexes cfg (pre ++ rows)
  = rmap (fmap (Z.add (Z.of_nat (length pre))))
      (_extract_section_indexes cfg rows).
Proof.
  intros Hpre. unfold _extract_section_indexes, enumerate.
  rewrite enumerate_from_app, for_in_app, scan_unmapped by done. simpl.
  rewrite <- scan_shift, fmap_empty. do 3 f_equal.
Qed.

End Locator.

Section DecoderFacts.

Variable strptime : string -> string -> option datetime.

Implicit Types (self : AttendanceReader) (record : list string).

(** The participants loop decodes the rows of its range one by one. *)
Lemma participants_traverse self :
  _extract_participants strptime self
  = (start_index <~ dict_getitem (_section_indexes self) PARTICIPANTS ;;
     next_start <~ dict_getitem (_section_indexes self) MEETING_ACTIVITIES ;;
     traverse (fun index => record <~ getitem (_csv_reader self) index ;;
                            participant_of_record strptime self record)
       (seqZ start_index (next_start - 3 - start_index))).
Proof.
  unfold _extract_participants, range, rmap.
  destruct (dict_getitem _ PARTICIPANTS) as [s|]; simpl; [| done].
  destruct (dict_getitem _ MEETING_ACTIVITIES) as [e|]; simpl; [| done].
  set (g := fun index => record <~ getitem (_csv_reader self) index ;;
                         participant_of_record strptime self record).
  rewrite (for_in_ext _ _ (fun index acc => y <~ g index ;; Ok (acc ++ [y]))).
  - rewrite for_in_append. unfold rmap. by destruct (traverse _ _).
  - intros index acc _. unfold g. by destruct (getitem _ index).
Qed.

(** The activities loop decodes the rows of its range one by one. *)
Lemma in_meeting_activities_traverse self :
  _extract_in_meeting_activities strptime self
  = (start_index <~ dict_getitem (_section_indexes self) MEETING_ACTIVITIES ;;
     next_start <~ dict_getitem (_section_indexes self) VIDEO_AND_AUDIO_CONSENT ;;
     traverse (fun index => record <~ getitem (_csv_reader self) index ;;
                            activity_of_record strptime self record)
       (seqZ start_index (next_start - 3 - start_index))).
Proof.
  unfold _extract_in_meeting_activities, range, rmap.
  destruct (dict_getitem _ MEETING_ACTIVITIES) as [s|]; simpl; [| done].
  destruct (dict_getitem _ VIDEO_AND_AUDIO_CONSENT) as [e|]; simpl; [| done].
  set (g := fun index => record <~ getitem (_csv_reader self) index ;;
                         activity_of_record strptime self record).
  rewrite (for_in_ext _ _ (fun index acc => y <~ g index ;; Ok (acc ++ [y]))).
  - rewrite for_in_append. unfold rmap. by destruct (traverse _ _).
  - intros index acc _. unfold g. by destruct (getitem _ index).
Qed.

Lemma convert_not_KeyError self (s : string) :
  _convert_string_to_datetime strptime self s <> Raise KeyError.
Proof. unfold _convert_string_to_datetime. by destruct (strptime _ _). Qed.

Ltac step_getitem :=
  match goal with
  | |- bind (getitem ?l ?i) _ <> _ =>
      let E := fresh "E" in
      destruct (getitem l i) eqn:E; simpl;
      [| apply getitem_Raise in E; congruence]
  | |- bind (_convert_string_to_datetime ?p ?s ?x) _ <> _ =>
      let E := fresh "E" in
      destruct (_convert_string_to_datetime p s x) eqn:E; simpl;
      [| pose proof (convert_not_KeyError s x); congruence]
  end.

Ltac refute_eq Herr :=
  exfalso; revert Herr;
  lazymatch goal with |- ?x = ?y -> False => change (x <> y) end.

Lemma participant_of_record_not_KeyError self record :
  participant_of_record strptime self record <> Raise KeyError.
Proof. unfold participant_of_record. repeat step_getitem. done. Qed.

Lemma activity_of_record_not_KeyError self record :
  activity_of_record strptime self record <> Raise KeyError.
Proof. unfold activity_of_record. repeat step_getitem. done. Qed.

(** [KeyError] comes out of an accessor exactly when one of the two
    sections it reads was not located. *)
Lemma start_time_KeyError self :
  start_time strptime self = Raise KeyError
  <-> _section_indexes self !! START_TIME = None.
Proof.
  unfold start_time, _extract_start_time, dict_getitem.
  destruct (_section_indexes self !! START_TIME) as [o|]; simpl; [| done].
  split; [| done]. intros Herr. refute_eq Herr.
  repeat step_getitem. apply convert_not_KeyError.
Qed.

Lemma participants_KeyError self :
  participants strptime self = Raise KeyError
  <-> _section_indexes self !! PARTICIPANTS = None
      \/ _section_indexes self !! MEETING_ACTIVITIES = None.
Proof.
  unfold participants. rewrite participants_traverse. unfold dict_getitem.
  destruct (_section_indexes self !! PARTICIPANTS) as [s|]; simpl;
    [| by split; [left |]].
  destruct (_section_indexes self !! MEETING_ACTIVITIES) as [e|]; simpl;
    [| by split; [right |]].
  split; [| by intros [? | ?]].
  intros (index & _ & Herr)%traverse_Raise. refute_eq Herr.
  step_getitem. apply participant_of_record_not_KeyError.
Qed.

Lemma in_meeting_activities_KeyError self :
  in_meeting_activities strptime self = Raise KeyError
  <-> _section_indexes self !! MEETING_ACTIVITIES = None
      \/ _section_indexes self !! VIDEO_AND_AUDIO_CONSENT = None.
Proof.
  unfold in_meeting_activities. rewrite in_meeting_activities_traverse.
  unfold dict_getitem.
  destruct (_section_indexes self !! MEETING_ACTIVITIES) as [s|]; simpl;
    [| by split; [left |]].
  destruct (_section_indexes self !! VIDEO_AND_AUDIO_CONSENT) as [e|]; simpl;
    [| by split; [right |]].
  split; [| by intros [? | ?]].
  intros (index & _ & Herr)%traverse_Raise. refute_eq Herr.
  step_getitem. apply activity_of_record_not_KeyError.
Qed.

End DecoderFacts.

Section Prepend.

Variable strptime : string -> string -> option datetime.
Variable cfg : AttendanceConfig.

Implicit Types (pre rows : list (list string)) (idx : gmap SectionHeading Z).

Lemma start_time_prepend pre rows idx :
  (forall lbl o, idx !! lbl = Some o -> 0 <= o) ->
  start_time strptime
    (mkAttendanceReader cfg (pre ++ rows) (Z.add (Z.of_nat (length pre)) <$> idx))
  = start_time strptime (mkAttendanceReader cfg rows idx).
Proof.
  intros Hpos. unfold start_time, _extract_start_time. simpl.
  rewrite dict_getitem_fmap. unfold dict_getitem, rmap.
  destruct (idx !! START_TIME) as [o|] eqn:E; simpl; [| done].
  rewrite getitem_app_shift by eauto. done.
Qed.

Lemma participants_prepend pre rows idx :
  (forall lbl o, idx !! lbl = Some o -> 0 <= o) ->
  participants strptime
    (mkAttendanceReader cfg (pre ++ rows) (Z.add (Z.of_nat (length pre)) <$> idx))
  = participants strptime (mkAttendanceReader cfg rows idx).
Proof.
  intros Hpos. unfold participants. rewrite !participants_traverse. simpl.
  rewrite !dict_getitem_fmap. unfold dict_getitem, rmap.
  destruct (idx !! PARTICIPANTS) as [s|] eqn:Es; simpl; [| done].
  destruct (idx !! MEETING_ACTIVITIES) as [e|] eqn:Ee; simpl; [| done].
  set (k := Z.of_nat (length pre)).
  replace (k + e - 3 - (k + s)) with (e - 3 - s) by lia.
  rewrite <- fmap_add_seqZ, traverse_fmap. apply traverse_ext.
  intros index [Hlo _]%elem_of_seqZ. unfold k.
  rewrite getitem_app_shift; [done |]. specialize (Hpos _ _ Es). lia.
Qed.

Lemma in_meeting_activities_prepend pre rows idx :
  (forall lbl o, idx !! lbl = Some o -> 0 <= o) ->
  in_meeting_activities strptime
    (mkAttendanceReader cfg (pre ++ rows) (Z.add (Z.of_nat (length pre)) <$> idx))
  = in_meeting_activities strptime (mkAttendanceReader cfg rows idx).
Proof.
  intros Hpos. unfold in_meeting_activities.
  rewrite !in_meeting_activities_traverse. simpl.
  rewrite !dict_getitem_fmap. unfold dict_getitem, rmap.
  destruct (idx !! MEETING_ACTIVITIES) as [s|] eqn:Es; simpl; [| done].
  destruct (idx !! VIDEO_AND_AUDIO_CONSENT) as [e|] eqn:Ee; simpl; [| done].
  set (k := Z.of_nat (length pre)).
  replace (k + e - 3 - (k + s)) with (e - 3 - s) by lia.
  rewrite <- fmap_add_seqZ, traverse_fmap. apply traverse_ext.
  intros index [Hlo _]%elem_of_seqZ. unfold k.
  rewrite getitem_app_shift; [done |]. specialize (Hpos _ _ Es). lia.
Qed.

End Prepend.

(** ** The claims about the section locator and the decoder *)

(** The sample export is located and decoded as expected. *)
Example sample_reader_built :
  reader_of_rows ATTENDANCE_CONFIG sample_rows = Ok sample_reader
  /\ start_time strptime_table sample_reader = Ok (at_time 14 15 7)
  /\ participants strptime_table sample_reader = Ok [sample_participant]
  /\ in_meeting_activities strptime_table sample_reader = Ok [sample_activity].
Proof. vm_compute. done. Qed.



(** Of two rows announcing the same section, the later one decides. *)
Example last_match_wins :
  _extract_section_indexes ATTENDANCE_CONFIG
    [ ["2. Participants"]; ["x"]; ["2. Participants"]; ["y"] ]%string
  = Ok (<[PARTICIPANTS := 4]> ∅).
Proof. vm_compute. reflexivity. Qed.

(** C10. On rows that all have a first field the scan returns; on rows one
    of which has no field it raises [IndexError] instead of skipping that
    row. *)
Theorem scan_fails_on_empty_row (cfg : AttendanceConfig)
    (rows : list (list string)) :
  (Forall (fun record => record <> []) rows
   -> is_Ok (_extract_section_indexes cfg rows))
  /\ ([] ∈ rows -> _extract_section_indexes cfg rows = Raise IndexError)
  /\ (forall (i : Z) (idx : gmap SectionHeading Z),
        heading_of cfg [] = None
        /\ section_index_step cfg (i, []) idx = Raise IndexError).
Proof.
  split_and!.
  - apply scan_total.
  - apply scan_empty_row.
  - intros i idx. split; [done | apply section_index_step_nil].
Qed.

Lemma scan_fails_on_empty_row_witness :
  is_Ok (_extract_section_indexes ATTENDANCE_CONFIG sample_rows)
  /\ _extract_section_indexes ATTENDANCE_CONFIG (sample_rows ++ [[]])
     = Raise IndexError.
Proof.
  split.
  - apply (scan_fails_on_empty_row ATTENDANCE_CONFIG sample_rows).
    unfold sample_rows. repeat (apply Forall_cons; split; [discriminate |]).
    apply Forall_nil. exact I.
  - apply (scan_fails_on_empty_row ATTENDANCE_CONFIG (sample_rows ++ [[]])).
    apply elem_of_app. right. apply list_elem_of_here.
Defined.

(** C6. With the offsets located, [participants] returns exactly the
    decoded rows of indexes [offset[PARTICIPANTS]] up to, not including,
    [offset[MEETING_ACTIVITIES] - 3], in order, and
    [in_meeting_activities] those of [offset[MEETING_ACTIVITIES]] up to
    [offset[VIDEO_AND_AUDIO_CONSENT] - 3]; a range whose end is at or before
    its start gives the empty list. *)
Theorem section_rows_decoded (strptime : string -> string -> option datetime)
    (self : AttendanceReader) (p m v : Z) :
  _section_indexes self !! PARTICIPANTS = Some p ->
  _section_indexes self !! MEETING_ACTIVITIES = Some m ->
  _section_indexes self !! VIDEO_AND_AUDIO_CONSENT = Some v ->
  (forall ps : list Participant,
      participants strptime self = Ok ps
      <-> Forall2 (fun index participant =>
                     exists record,
                       getitem (_csv_reader self) index = Ok record
                       /\ participant_of_record strptime self record
                          = Ok participant)
            (seqZ p (m - 3 - p)) ps)
  /\ (m - 3 <= p -> participants strptime self = Ok [])
  /\ (forall acts : list InMeetingActivity,
        in_meeting_activities strptime self = Ok acts
        <-> Forall2 (fun index activity =>
                       exists record,
                         getitem (_csv_reader self) index = Ok record
                         /\ activity_of_record strptime self record
                            = Ok activity)
              (seqZ m (v - 3 - m)) acts)
  /\ (v - 3 <= m -> in_meeting_activities strptime self = Ok []).
Proof.
  intros Hp Hm Hv.
  assert (Hps : participants strptime self
                = traverse (fun index =>
                              record <~ getitem (_csv_reader self) index ;;
                              participant_of_record strptime self record)
                    (seqZ p (m - 3 - p))).
  { unfold participants. rewrite participants_traverse. unfold dict_getitem.
    by rewrite Hp, Hm. }
  assert (Has : in_meeting_activities strptime self
                = traverse (fun index =>
                              record <~ getitem (_csv_reader self) index ;;
                              activity_of_record strptime self record)
                    (seqZ m (v - 3 - m))).
  { unfold in_meeting_activities. rewrite in_meeting_activities_traverse.
    unfold dict_getitem. by rewrite Hm, Hv. }
  split_and!.
  - intros ps. rewrite Hps, traverse_Ok.
    split; intros HF; (eapply Forall2_impl; [exact HF |]);
      intros index participant HH; [by apply bind_Ok in HH | by apply bind_Ok].
  - intros Hle. rewrite Hps, seqZ_nil by lia. done.
  - intros acts. rewrite Has, traverse_Ok.
    split; intros HF; (eapply Forall2_impl; [exact HF |]);
      intros index activity HH; [by apply bind_Ok in HH | by apply bind_Ok].
  - intros Hle. rewrite Has, seqZ_nil by lia. done.
Qed.

Lemma section_rows_decoded_witness :
  participants strptime_table sample_reader = Ok [sample_participant]
  /\ in_meeting_activities strptime_table sample_reader = Ok [sample_activity].
Proof.
  destruct (section_rows_decoded strptime_table sample_reader 5 9 13)
    as (Hps & _ & Has & _).
  - vm_compute. reflexivity.
  - vm_compute. reflexivity.
  - vm_compute. reflexivity.
  - split.
    + apply Hps. change (seqZ 5 (9 - 3 - 5)) with [5].
      constructor; [| constructor].
      eexists. split; vm_compute; reflexivity.
    + apply Has. change (seqZ 9 (13 - 3 - 9)) with [9].
      constructor; [| constructor].
      eexists. split; vm_compute; reflexivity.
Defined.

(** An end offset at or before the start gives an empty section: here the
    activities heading comes right after the participants heading. *)
Example empty_participants_section :
  read_participants strptime_table ATTENDANCE_CONFIG
    [ ["2. Participants"]; ["3. In-Meeting Activities"] ]%string
  = Ok [].
Proof. vm_compute. reflexivity. Qed.

(** C7, as stated, fails: with no row announcing START_TIME, the scan
    of a row sequence holding an empty row does not complete, it raises
    [IndexError]. *)
Lemma locate_fails_with_label_absent :
  Forall (fun record => heading_of ATTENDANCE_CONFIG record <> Some START_TIME)
    [[]]
  /\ _extract_section_indexes ATTENDANCE_CONFIG [[]] = Raise IndexError.
Proof.
  split; [| by vm_compute].
  apply Forall_cons. split; [vm_compute; discriminate | apply Forall_nil; exact I].
Qed.

(** C7, amended. When no row announces a label, the scan does not raise
    [KeyError], and returns on rows that all have a first field; the
    label then has no offset, the accessors that read this offset raise
    [KeyError], and an accessor whose own labels are located does not. *)
Theorem missing_section_surfaces_at_decode
    (strptime : string -> string -> option datetime)
    (cfg : AttendanceConfig) (rows : list (list string))
    (label : SectionHeading) :
  Forall (fun record => heading_of cfg record <> Some label) rows ->
  _extract_section_indexes cfg rows <> Raise KeyError
  /\ (Forall (fun record => record <> []) rows
      -> is_Ok (_extract_section_indexes cfg rows))
  /\ (forall idx : gmap SectionHeading Z,
        _extract_section_indexes cfg rows = Ok idx ->
        let self := mkAttendanceReader cfg rows idx in
        idx !! label = None
        /\ (label = START_TIME -> start_time strptime self = Raise KeyError)
        /\ (label = PARTICIPANTS \/ label = MEETING_ACTIVITIES
            -> participants strptime self = Raise KeyError)
        /\ (label = MEETING_ACTIVITIES \/ label = VIDEO_AND_AUDIO_CONSENT
            -> in_meeting_activities strptime self = Raise KeyError)
        /\ (is_Some (idx !! START_TIME)
            -> start_time strptime self <> Raise KeyError)
        /\ (is_Some (idx !! PARTICIPANTS)
            -> is_Some (idx !! MEETING_ACTIVITIES)
            -> participants strptime self <> Raise KeyError)
        /\ (is_Some (idx !! MEETING_ACTIVITIES)
            -> is_Some (idx !! VIDEO_AND_AUDIO_CONSENT)
            -> in_meeting_activities strptime self <> Raise KeyError)).
Proof.
  intros Habsent. split_and!.
  - intros Herr. by apply scan_Raise in Herr as [? _].
  - apply scan_total.
  - intros idx Hscan self.
    assert (Hnone : idx !! label = None).
    { rewrite (scan_lookup _ _ _ _ _ label Hscan), lookup_empty.
      apply last_heading_row_None in Habsent. by rewrite Habsent. }
    split_and!; [done | ..].
    + intros ->. by apply start_time_KeyError.
    + intros [-> | ->]; apply participants_KeyError; [by left | by right].
    + intros [-> | ->]; apply in_meeting_activities_KeyError;
        [by left | by right].
    + intros [o Ho]. rewrite start_time_KeyError. simpl. congruence.
    + intros [o Ho] [o' Ho']. rewrite participants_KeyError. simpl.
      intros [? | ?]; congruence.
    + intros [o Ho] [o' Ho']. rewrite in_meeting_activities_KeyError. simpl.
      intros [? | ?]; congruence.
Qed.

Lemma missing_section_surfaces_at_decode_witness :
  exists idx : gmap SectionHeading Z,
    _extract_section_indexes ATTENDANCE_CONFIG sample_rows_no_start = Ok idx
    /\ start_time strptime_table
         (mkAttendanceReader ATTENDANCE_CONFIG sample_rows_no_start idx)
       = Raise KeyError
    /\ participants strptime_table
         (mkAttendanceReader ATTENDANCE_CONFIG sample_rows_no_start idx)
       <> Raise KeyError.
Proof.
  destruct (missing_section_surfaces_at_decode strptime_table ATTENDANCE_CONFIG
              sample_rows_no_start START_TIME) as (_ & Htotal & Hdecode).
  - unfold sample_rows_no_start, sample_rows. simpl.
    repeat (apply Forall_cons; split; [vm_compute; discriminate |]).
    apply Forall_nil. exact I.
  - destruct Htotal as [idx Hidx].
    + unfold sample_rows_no_start, sample_rows. simpl.
      repeat (apply Forall_cons; split; [discriminate |]).
      apply Forall_nil. exact I.
    + exists idx. destruct (Hdecode idx Hidx) as (_ & Hstart & _ & _ & _ & Hps & _).
      split; [exact Hidx |]. split; [apply Hstart; reflexivity |].
      vm_compute in Hidx. injection Hidx as <-.
      apply Hps; eexists; vm_compute; reflexivity.
Defined.

(** C9. Putting [k] rows in front whose first fields are no configured
    heading adds [k] to every located offset, and [participants] and
    [in_meeting_activities] (and [start_time]) give what they gave before. *)
Theorem leading_rows_shift_offsets
    (strptime : string -> string -> option datetime)
    (cfg : AttendanceConfig) (pre rows : list (list string)) :
  Forall (fun record => exists h t, record = h :: t
                        /\ section_headings_mapping cfg !! h = None) pre ->
  _extract_section_indexes cfg (pre ++ rows)
  = rmap (fmap (Z.add (Z.of_nat (length pre))))
      (_extract_section_indexes cfg rows)
  /\ read_participants strptime cfg (pre ++ rows)
     = read_participants strptime cfg rows
  /\ read_in_meeting_activities strptime cfg (pre ++ rows)
     = read_in_meeting_activities strptime cfg rows
  /\ read_start_time strptime cfg (pre ++ rows)
     = read_start_time strptime cfg rows.
Proof.
  intros Hpre.
  pose proof (section_indexes_prepend cfg pre rows Hpre) as Hshift.
  split; [done |].
  unfold read_participants, read_in_meeting_activities, read_start_time,
    reader_of_rows.
  rewrite Hshift.
  destruct (_extract_section_indexes cfg rows) as [idx|err] eqn:Hscan;
    simpl; [| done].
  assert (Hpos : forall lbl o, idx !! lbl = Some o -> 0 <= o).
  { intros lbl o Ho. pose proof (section_indexes_ge_2 cfg rows idx lbl o Hscan Ho).
    lia. }
  split_and!.
  - by apply participants_prepend.
  - by apply in_meeting_activities_prepend.
  - by apply start_time_prepend.
Qed.

Lemma leading_rows_shift_offsets_witness :
  _extract_section_indexes ATTENDANCE_CONFIG (leading_rows ++ sample_rows)
  = rmap (fmap (Z.add (Z.of_nat (length leading_rows))))
      (_extract_section_indexes ATTENDANCE_CONFIG sample_rows)
  /\ read_participants strptime_table ATTENDANCE_CONFIG (leading_rows ++ sample_rows)
     = read_participants strptime_table ATTENDANCE_CONFIG sample_rows
  /\ read_in_meeting_activities strptime_table ATTENDANCE_CONFIG
       (leading_rows ++ sample_rows)
     = read_in_meeting_activities strptime_table ATTENDANCE_CONFIG sample_rows
  /\ read_start_time strptime_table ATTENDANCE_CONFIG (leading_rows ++ sample_rows)
     = read_start_time strptime_table ATTENDANCE_CONFIG sample_rows.
Proof.
  apply (leading_rows_shift_offsets strptime_table ATTENDANCE_CONFIG
           leading_rows sample_rows).
  unfold leading_rows.
  repeat (apply Forall_cons; split;
          [eexists; eexists; split; [reflexivity | vm_compute; reflexivity] |]).
  apply Forall_nil. exact I.
Defined.

(** The offsets of the sample export after the two leading rows. *)
Example leading_rows_offsets :
  _extract_section_indexes ATTENDANCE_CONFIG (leading_rows ++ sample_rows)
  = Ok (<[START_TIME := 4]>
          (<[PARTICIPANTS := 7]>
             (<[MEETING_ACTIVITIES := 11]>
                (<[VIDEO_AND_AUDIO_CONSENT := 15]> ∅)))).
Proof. vm_compute. reflexivity. Qed.

(** * Further properties of the decoder *)

Section RowDecoding.

Variable strptime : string -> string -> option datetime.

Implicit Types (self : AttendanceReader) (record : list string).

Lemma getitem_nat {A : Type} (l : list A) (n : nat) :
  getitem l (Z.of_nat n) = match l !! n with
                           | Some x => Ok x
                           | None => Raise IndexError
                           end.
Proof. rewrite getitem_nonneg by lia. by rewrite Nat2Z.id. Qed.

Lemma getitem_nat_Ok {A : Type} (l : list A) (n : nat) (x : A) :
  getitem l (Z.of_nat n) = Ok x <-> l !! n = Some x.
Proof. rewrite getitem_nat. destruct (l !! n); split; congruence. Qed.

Lemma convert_Ok self (s : string) (d : datetime) :
  _convert_string_to_datetime strptime self s = Ok d
  <-> strptime s (date_time_format (_ATTENDANCE_CONFIG self)) = Some d.
Proof.
  unfold _convert_string_to_datetime.
  destruct (strptime _ _); split; congruence.
Qed.

Lemma convert_Raise self (s : string) (err : exn) :
  _convert_string_to_datetime strptime self s = Raise err -> err = ValueError.
Proof.
  unfold _convert_string_to_datetime. destruct (strptime _ _); congruence.
Qed.

(** X1. A participants row decodes exactly when it has at least seven
    fields and its second and third fields parse as timestamps; the record
    then takes fields 1 to 6 by position (field 0 and any field after the
    seventh are not used).  A row of seven fields or more never raises
    [IndexError], a shorter one never decodes. *)
Theorem participant_row_decoding (self : AttendanceReader)
    (record : list string) (p : Participant) :
  (participant_of_record strptime self record = Ok p
   <-> exists f0 f1 f2 f3 f4 f5 f6 rest,
         record = f0 :: f1 :: f2 :: f3 :: f4 :: f5 :: f6 :: rest
         /\ strptime f1 (date_time_format (_ATTENDANCE_CONFIG self))
            = Some (first_join p)
         /\ strptime f2 (date_time_format (_ATTENDANCE_CONFIG self))
            = Some (last_leave p)
         /\ in_meeting_duration p = f3
         /\ p_email p = f4
         /\ participant_id p = f5
         /\ p_role p = f6)
  /\ ((7 <= length record)%nat
      -> participant_of_record strptime self record <> Raise IndexError)
  /\ ((length record < 7)%nat
      -> participant_of_record strptime self record <> Ok p).
Proof.
  assert (Hiff : participant_of_record strptime self record = Ok p
    <-> exists f0 f1 f2 f3 f4 f5 f6 rest,
          record = f0 :: f1 :: f2 :: f3 :: f4 :: f5 :: f6 :: rest
          /\ strptime f1 (date_time_format (_ATTENDANCE_CONFIG self))
             = Some (first_join p)
          /\ strptime f2 (date_time_format (_ATTENDANCE_CONFIG self))
             = Some (last_leave p)
          /\ in_meeting_duration p = f3
          /\ p_email p = f4
          /\ participant_id p = f5
          /\ p_role p = f6).
  { unfold participant_of_record. split.
    - intros Hok.
      apply bind_Ok in Hok as (f1 & H1 & Hok).
      apply bind_Ok in Hok as (j & Hj & Hok).
      apply bind_Ok in Hok as (f2 & H2 & Hok).
      apply bind_Ok in Hok as (l & Hl & Hok).
      apply bind_Ok in Hok as (f3 & H3 & Hok).
      apply bind_Ok in Hok as (f4 & H4 & Hok).
      apply bind_Ok in Hok as (f5 & H5 & Hok).
      apply bind_Ok in Hok as (f6 & H6 & Hok).
      injection Hok as <-. apply convert_Ok in Hj, Hl.
      apply (getitem_nat_Ok record 1) in H1. apply (getitem_nat_Ok record 2) in H2.
      apply (getitem_nat_Ok record 3) in H3. apply (getitem_nat_Ok record 4) in H4.
      apply (getitem_nat_Ok record 5) in H5. apply (getitem_nat_Ok record 6) in H6.
      destruct record as [|g0 [|g1 [|g2 [|g3 [|g4 [|g5 [|g6 rest]]]]]]];
        try discriminate.
      injection H1 as ->. injection H2 as ->. injection H3 as ->.
      injection H4 as ->. injection H5 as ->. injection H6 as ->.
      by exists g0, f1, f2, f3, f4, f5, f6, rest.
    - intros (f0 & f1 & f2 & f3 & f4 & f5 & f6 & rest & -> & Hj & Hl
              & H3 & H4 & H5 & H6).
      unfold _convert_string_to_datetime.
      rewrite getitem_nonneg by lia. simpl. rewrite Hj. simpl.
      rewrite getitem_nonneg by lia. simpl. rewrite Hl. simpl.
      repeat (rewrite getitem_nonneg by lia; simpl).
      destruct p. simpl in *. by subst. }
  split_and!; [exact Hiff | |].
  - intros Hlen.
    destruct record as [|g0 [|g1 [|g2 [|g3 [|g4 [|g5 [|g6 rest]]]]]]];
      simpl in Hlen; try lia.
    unfold participant_of_record, _convert_string_to_datetime.
    rewrite getitem_nonneg by lia. simpl.
    destruct (strptime g1 _); simpl; [| done].
    rewrite getitem_nonneg by lia. simpl.
    destruct (strptime g2 _); simpl; [| done].
    repeat (rewrite getitem_nonneg by lia; simpl). done.
  - intros Hlen Hok. apply Hiff in Hok as (? & ? & ? & ? & ? & ? & ? & ? & -> & _).
    simpl in Hlen. lia.
Qed.

(** X2. An activities row decodes exactly when it has at least six fields
    and its second and third fields parse as timestamps; the record takes
    fields 0 to 5 by position.  A row of six fields or more never raises
    [IndexError], a shorter one never decodes. *)
Theorem activity_row_decoding (self : AttendanceReader)
    (record : list string) (a : InMeetingActivity) :
  (activity_of_record strptime self record = Ok a
   <-> exists f0 f1 f2 f3 f4 f5 rest,
         record = f0 :: f1 :: f2 :: f3 :: f4 :: f5 :: rest
         /\ name a = f0
         /\ strptime f1 (date_time_format (_ATTENDANCE_CONFIG self))
            = Some (join_time a)
         /\ strptime f2 (date_time_format (_ATTENDANCE_CONFIG self))
            = Some (leave_time a)
         /\ duration a = f3
         /\ email a = f4
         /\ role a = f5)
  /\ ((6 <= length record)%nat
      -> activity_of_record strptime self record <> Raise IndexError)
  /\ ((length record < 6)%nat
      -> activity_of_record strptime self record <> Ok a).
Proof.
  assert (Hiff : activity_of_record strptime self record = Ok a
    <-> exists f0 f1 f2 f3 f4 f5 rest,
          record = f0 :: f1 :: f2 :: f3 :: f4 :: f5 :: rest
          /\ name a = f0
          /\ strptime f1 (date_time_format (_ATTENDANCE_CONFIG self))
             = Some (join_time a)
          /\ strptime f2 (date_time_format (_ATTENDANCE_CONFIG self))
             = Some (leave_time a)
          /\ duration a = f3
          /\ email a = f4
          /\ role a = f5).
  { unfold activity_of_record. split.
    - intros Hok.
      apply bind_Ok in Hok as (f0 & H0 & Hok).
      apply bind_Ok in Hok as (f1 & H1 & Hok).
      apply bind_Ok in Hok as (j & Hj & Hok).
      apply bind_Ok in Hok as (f2 & H2 & Hok).
      apply bind_Ok in Hok as (l & Hl & Hok).
      apply bind_Ok in Hok as (f3 & H3 & Hok).
      apply bind_Ok in Hok as (f4 & H4 & Hok).
      apply bind_Ok in Hok as (f5 & H5 & Hok).
      injection Hok as <-. apply convert_Ok in Hj, Hl.
      apply (getitem_nat_Ok record 0) in H0. apply (getitem_nat_Ok record 1) in H1.
      apply (getitem_nat_Ok record 2) in H2. apply (getitem_nat_Ok record 3) in H3.
      apply (getitem_nat_Ok record 4) in H4. apply (getitem_nat_Ok record 5) in H5.
      destruct record as [|g0 [|g1 [|g2 [|g3 [|g4 [|g5 rest]]]]]];
        try discriminate.
      injection H0 as ->. injection H1 as ->. injection H2 as ->.
      injection H3 as ->. injection H4 as ->. injection H5 as ->.
      by exists f0, f1, f2, f3, f4, f5, rest.
    - intros (f0 & f1 & f2 & f3 & f4 & f5 & rest & -> & H0 & Hj & Hl
              & H3 & H4 & H5).
      unfold _convert_string_to_datetime.
      rewrite getitem_nonneg by lia. simpl.
      rewrite getitem_nonneg by lia. simpl. rewrite Hj. simpl.
      rewrite getitem_nonneg by lia. simpl. rewrite Hl. simpl.
      repeat (rewrite getitem_nonneg by lia; simpl).
      destruct a. simpl in *. by subst. }
  split_and!; [exact Hiff | |].
  - intros Hlen.
    destruct record as [|g0 [|g1 [|g2 [|g3 [|g4 [|g5 rest]]]]]];
      simpl in Hlen; try lia.
    unfold activity_of_record, _convert_string_to_datetime.
    rewrite getitem_nonneg by lia. simpl.
    rewrite getitem_nonneg by lia. simpl.
    destruct (strptime g1 _); simpl; [| done].
    rewrite getitem_nonneg by lia. simpl.
    destruct (strptime g2 _); simpl; [| done].
    repeat (rewrite getitem_nonneg by lia; simpl). done.
  - intros Hlen Hok. apply Hiff in Hok as (? & ? & ? & ? & ? & ? & ? & -> & _).
    simpl in Hlen. lia.
Qed.

End RowDecoding.

(** * Further properties of the section locator *)

Section LocatorMore.

Variable cfg : AttendanceConfig.

Implicit Types (rows : list (list string)) (idx : gmap SectionHeading Z)
  (lbl : SectionHeading).

Local Arguments section_index_step : simpl never.

Lemma last_heading_row_lt lbl rows (j : nat) :
  last_heading_row cfg lbl rows = Some j -> (j < length rows)%nat.
Proof.
  intros (before & record & after & -> & <- & _)%last_heading_row_Some.
  rewrite length_app. simpl. lia.
Qed.

Lemma last_heading_row_inj (l1 l2 : SectionHeading) rows (j : nat) :
  last_heading_row cfg l1 rows = Some j ->
  last_heading_row cfg l2 rows = Some j ->
  l1 = l2.
Proof.
  intros (b1 & r1 & a1 & -> & <- & Hr1 & _)%last_heading_row_Some.
  intros (b2 & r2 & a2 & Heq & Hlen & Hr2 & _)%last_heading_row_Some.
  apply app_inj_1 in Heq as [_ Heq]; [| done].
  injection Heq as <- _. congruence.
Qed.

Lemma section_indexes_lookup rows idx lbl :
  _extract_section_indexes cfg rows = Ok idx ->
  idx !! lbl = (fun j : nat => Z.of_nat j + 2) <$> last_heading_row cfg lbl rows.
Proof.
  intros Hscan. rewrite (scan_lookup _ _ _ _ _ lbl Hscan), lookup_empty.
  destruct (last_heading_row cfg lbl rows); simpl; [f_equal; lia | done].
Qed.

(** X3. Every offset the scan records lies between 2 and the number of
    rows plus 1, and two different sections never get the same offset. *)
Theorem section_offsets_bounded_distinct rows idx :
  _extract_section_indexes cfg rows = Ok idx ->
  (forall lbl (o : Z),
      idx !! lbl = Some o -> 2 <= o <= Z.of_nat (length rows) + 1)
  /\ (forall (l1 l2 : SectionHeading) (o : Z),
        idx !! l1 = Some o -> idx !! l2 = Some o -> l1 = l2).
Proof.
  intros Hscan. split.
  - intros lbl o. rewrite (section_indexes_lookup _ _ _ Hscan).
    destruct (last_heading_row cfg lbl rows) as [j|] eqn:E; [| done].
    intros [= <-]. apply last_heading_row_lt in E. lia.
  - intros l1 l2 o.
    rewrite (section_indexes_lookup _ _ l1 Hscan),
      (section_indexes_lookup _ _ l2 Hscan).
    destruct (last_heading_row cfg l1 rows) as [j1|] eqn:E1; [| done].
    destruct (last_heading_row cfg l2 rows) as [j2|] eqn:E2; [| done].
    simpl. intros [= <-] [= Hj]. assert (j2 = j1) as -> by lia.
    by eapply last_heading_row_inj.
Qed.

Lemma scan_first_fields rows rows' (i : Z) idx :
  take 1 <$> rows = take 1 <$> rows' ->
  for_in (enumerate_from i rows) (section_index_step cfg) idx
  = for_in (enumerate_from i rows') (section_index_step cfg) idx.
Proof.
  revert rows' i idx. induction rows as [|record rows IH];
    intros [|record' rows'] i idx Heq; csimpl in *; try done.
  injection Heq as Hhead Htail.
  assert (Hstep : section_index_step cfg (i, record) idx
                  = section_index_step cfg (i, record') idx).
  { destruct record as [|h t], record' as [|h' t']; try done.
    injection Hhead as ->. by rewrite !section_index_step_cons. }
  rewrite Hstep. destruct (section_index_step cfg (i, record') idx); simpl;
    [by apply IH | done].
Qed.

(** X4. The scan looks at the first field of each row and at nothing
    else: two row sequences whose rows have the same first fields (or are
    empty at the same places) give the same offsets, or the same failure. *)
Theorem scan_reads_first_fields_only rows rows' :
  take 1 <$> rows = take 1 <$> rows' ->
  _extract_section_indexes cfg rows = _extract_section_indexes cfg rows'.
Proof. intros Heq. unfold _extract_section_indexes, enumerate. by apply scan_first_fields. Qed.

Lemma section_indexes_append rows (post : list (list string)) :
  Forall (fun record => exists h t, record = h :: t
                        /\ section_headings_mapping cfg !! h = None) post ->
  _extract_section_indexes cfg (rows ++ post) = _extract_section_indexes cfg rows.
Proof.
  intros Hpost. unfold _extract_section_indexes, enumerate.
  rewrite enumerate_from_app, for_in_app.
  destruct (for_in (enumerate_from 0 rows) _ _) as [idx|err]; simpl; [| done].
  by apply scan_unmapped.
Qed.

End LocatorMore.

Lemma getitem_app_l_Ok {A : Type} (l k : list A) (i : Z) (x : A) :
  0 <= i -> getitem l i = Ok x -> getitem (l ++ k) i = Ok x.
Proof.
  intros Hi. rewrite !getitem_nonneg by done.
  destruct (l !! Z.to_nat i) as [y|] eqn:E; [| done].
  intros [= ->]. by rewrite (lookup_app_l_Some _ _ _ _ E).
Qed.

Lemma traverse_Ok_impl {A B : Type} (g1 g2 : A -> result B) (xs : list A)
    (ys : list B) :
  (forall x y, x ∈ xs -> g1 x = Ok y -> g2 x = Ok y) ->
  traverse g1 xs = Ok ys -> traverse g2 xs = Ok ys.
Proof.
  rewrite !traverse_Ok. intros Himp HF.
  induction HF as [|x y xs ys Hxy HF IH]; constructor.
  - apply Himp; [by left | done].
  - apply IH. intros x' y' Hin. apply Himp. by right.
Qed.

Section TrailingRows.

Variable strptime : string -> string -> option datetime.
Variable cfg : AttendanceConfig.

Implicit Types (rows post : list (list string)).

(** X5. Rows added at the end that announce no section leave the offsets
    as they are, and whatever [start_time], [participants] or
    [in_meeting_activities] returned before, it returns again. *)
Theorem trailing_rows_change_nothing rows post :
  Forall (fun record => exists h t, record = h :: t
                        /\ section_headings_mapping cfg !! h = None) post ->
  _extract_section_indexes cfg (rows ++ post) = _extract_section_indexes cfg rows
  /\ (forall d, read_start_time strptime cfg rows = Ok d
                -> read_start_time strptime cfg (rows ++ post) = Ok d)
  /\ (forall ps, read_participants strptime cfg rows = Ok ps
                 -> read_participants strptime cfg (rows ++ post) = Ok ps)
  /\ (forall acts, read_in_meeting_activities strptime cfg rows = Ok acts
                   -> read_in_meeting_activities strptime cfg (rows ++ post)
                      = Ok acts).
Proof.
  intros Hpost.
  pose proof (section_indexes_append cfg rows post Hpost) as Hsame.
  split; [done |].
  unfold read_start_time, read_participants, read_in_meeting_activities,
    reader_of_rows.
  rewrite Hsame.
  destruct (_extract_section_indexes cfg rows) as [idx|err] eqn:Hscan;
    simpl; [| done].
  assert (Hpos : forall lbl o, idx !! lbl = Some o -> 0 <= o).
  { intros lbl o Ho.
    pose proof (section_indexes_ge_2 cfg rows idx lbl o Hscan Ho). lia. }
  split_and!.
  - intros d. unfold start_time, _extract_start_time, dict_getitem. simpl.
    destruct (idx !! START_TIME) as [o|] eqn:Eo; simpl; [| done].
    destruct (getitem rows o) as [record|] eqn:Er; simpl; [| done].
    rewrite (getitem_app_l_Ok _ _ _ _ (Hpos _ _ Eo) Er). done.
  - intros ps. unfold participants. rewrite !participants_traverse.
    unfold dict_getitem. simpl.
    destruct (idx !! PARTICIPANTS) as [s|] eqn:Es; simpl; [| done].
    destruct (idx !! MEETING_ACTIVITIES) as [e|]; simpl; [| done].
    apply traverse_Ok_impl. intros index p [Hlo _]%elem_of_seqZ.
    destruct (getitem rows index) as [record|] eqn:Er; simpl; [| done].
    rewrite (getitem_app_l_Ok _ _ _ record) by (specialize (Hpos _ _ Es); lia || done).
    done.
  - intros acts. unfold in_meeting_activities.
    rewrite !in_meeting_activities_traverse. unfold dict_getitem. simpl.
    destruct (idx !! MEETING_ACTIVITIES) as [s|] eqn:Es; simpl; [| done].
    destruct (idx !! VIDEO_AND_AUDIO_CONSENT) as [e|]; simpl; [| done].
    apply traverse_Ok_impl. intros index p [Hlo _]%elem_of_seqZ.
    destruct (getitem rows index) as [record|] eqn:Er; simpl; [| done].
    rewrite (getitem_app_l_Ok _ _ _ record) by (specialize (Hpos _ _ Es); lia || done).
    done.
Qed.

End TrailingRows.

(** * Sections as slices of the row sequence *)

Lemma getitem_cons_succ {A : Type} (x : A) (l : list A) (i : Z) :
  0 <= i -> getitem (x :: l) (i + 1) = getitem l i.
Proof.
  intros Hi. rewrite <- (getitem_app_shift [x] l i Hi). simpl. f_equal. lia.
Qed.

(** Fetching and decoding the rows of indexes [s], ..., [s + n - 1], all
    within the sequence, is decoding the slice of [n] rows that starts at
    [s]. *)
Lemma traverse_rows_slice {A B : Type} (g : A -> result B) (rows : list A)
    (s n : Z) :
  0 <= s ->
  (0 < n -> s + n <= Z.of_nat (length rows)) ->
  traverse (fun index => record <~ getitem rows index ;; g record) (seqZ s n)
  = traverse g (take (Z.to_nat n) (drop (Z.to_nat s) rows)).
Proof.
  intros Hs Hn. destruct (decide (n <= 0)) as [Hle|Hpos].
  - rewrite seqZ_nil by done. by replace (Z.to_nat n) with 0%nat by lia.
  - assert (Hk : exists k : nat, n = Z.of_nat k) by (exists (Z.to_nat n); lia).
    destruct Hk as [k ->]. rewrite Nat2Z.id. clear Hpos.
    revert s Hs Hn. induction k as [|k IH]; intros s Hs Hn; [done |].
    rewrite seqZ_cons by lia.
    replace (Z.pred (Z.of_nat (S k))) with (Z.of_nat k) by lia.
    destruct (lookup_lt_is_Some_2 rows (Z.to_nat s)) as [x Hx]; [lia |].
    rewrite (drop_S _ _ _ Hx). simpl.
    rewrite getitem_nonneg, Hx by done. simpl.
    replace (S (Z.to_nat s)) with (Z.to_nat (Z.succ s)) by lia.
    rewrite IH by lia. done.
Qed.

Section Slices.

Variable strptime : string -> string -> option datetime.
Variable cfg : AttendanceConfig.

Implicit Types (rows before after : list (list string))
  (idx : gmap SectionHeading Z) (lbl : SectionHeading).

(** The offset of a section whose last heading row is known. *)
Lemma section_index_of_last_heading before (record : list string) after idx lbl :
  _extract_section_indexes cfg (before ++ record :: after) = Ok idx ->
  heading_of cfg record = Some lbl ->
  Forall (fun r => heading_of cfg r <> Some lbl) after ->
  idx !! lbl = Some (Z.of_nat (length before) + 2).
Proof.
  intros Hscan Hrec Hafter. rewrite (section_indexes_lookup _ _ _ _ Hscan).
  assert (Hlast : last_heading_row cfg lbl (before ++ record :: after)
                  = Some (length before)).
  { apply last_heading_row_Some. by exists before, record, after. }
  by rewrite Hlast.
Qed.

(** X6. With the offsets the scan returned, the start time is read from
    the second field of the row two below the last row announcing
    START_TIME: the heading row's own fields after the first, and the row
    right below it, are not used. *)
Theorem start_time_two_rows_below_heading before (record : list string) after
    idx :
  _extract_section_indexes cfg (before ++ record :: after) = Ok idx ->
  heading_of cfg record = Some START_TIME ->
  Forall (fun r => heading_of cfg r <> Some START_TIME) after ->
  start_time strptime (mkAttendanceReader cfg (before ++ record :: after) idx)
  = (target <~ getitem after 1 ;;
     start_time_str <~ getitem target 1 ;;
     match strptime start_time_str (date_time_format cfg) with
     | Some d => Ok d
     | None => Raise ValueError
     end).
Proof.
  intros Hscan Hrec Hafter.
  pose proof (section_index_of_last_heading _ _ _ _ _ Hscan Hrec Hafter) as Ho.
  unfold start_time, _extract_start_time, dict_getitem. simpl.
  rewrite Ho. simpl.
  rewrite getitem_app_shift by lia.
  replace 2 with (1 + 1) by lia. rewrite getitem_cons_succ by lia. done.
Qed.

(** X7. With the offsets the scan returned, the last PARTICIPANTS heading
    at row [i] and the last MEETING_ACTIVITIES heading at row [j],
    [participants] decodes the rows [i + 2], ..., [j - 2], a slice of
    [j - i - 3] rows that always lies within the sequence: no row fetch
    fails, and the list is empty when [j <= i + 3]. *)
Theorem participants_rows_between_headings rows
    before1 (heading1 : list string) after1
    before2 (heading2 : list string) after2 idx :
  _extract_section_indexes cfg rows = Ok idx ->
  rows = before1 ++ heading1 :: after1 ->
  heading_of cfg heading1 = Some PARTICIPANTS ->
  Forall (fun r => heading_of cfg r <> Some PARTICIPANTS) after1 ->
  rows = before2 ++ heading2 :: after2 ->
  heading_of cfg heading2 = Some MEETING_ACTIVITIES ->
  Forall (fun r => heading_of cfg r <> Some MEETING_ACTIVITIES) after2 ->
  participants strptime (mkAttendanceReader cfg rows idx)
  = traverse (participant_of_record strptime (mkAttendanceReader cfg rows idx))
      (take (length before2 - length before1 - 3)
         (drop (length before1 + 2) rows)).
Proof.
  intros Hscan Hrows1 Hh1 Ha1 Hrows2 Hh2 Ha2.
  assert (Hp : idx !! PARTICIPANTS = Some (Z.of_nat (length before1) + 2)).
  { eapply section_index_of_last_heading; [by rewrite <- Hrows1 | done | done]. }
  assert (Hm : idx !! MEETING_ACTIVITIES = Some (Z.of_nat (length before2) + 2)).
  { eapply section_index_of_last_heading; [by rewrite <- Hrows2 | done | done]. }
  assert (Hlen : (length before2 < length rows)%nat).
  { rewrite Hrows2, length_app. simpl. lia. }
  unfold participants. rewrite participants_traverse. unfold dict_getitem. simpl.
  rewrite Hp, Hm. simpl.
  rewrite traverse_rows_slice by lia. f_equal. f_equal; [lia | f_equal; lia].
Qed.

(** X8. With the offsets the scan returned, the last MEETING_ACTIVITIES
    heading at row [j] and the last VIDEO_AND_AUDIO_CONSENT heading at row
    [k], [in_meeting_activities] decodes the rows [j + 2], ..., [k - 2], a
    slice of [k - j - 3] rows within the sequence. *)
Theorem activities_rows_between_headings rows
    before1 (heading1 : list string) after1
    before2 (heading2 : list string) after2 idx :
  _extract_section_indexes cfg rows = Ok idx ->
  rows = before1 ++ heading1 :: after1 ->
  heading_of cfg heading1 = Some MEETING_ACTIVITIES ->
  Forall (fun r => heading_of cfg r <> Some MEETING_ACTIVITIES) after1 ->
  rows = before2 ++ heading2 :: after2 ->
  heading_of cfg heading2 = Some VIDEO_AND_AUDIO_CONSENT ->
  Forall (fun r => heading_of cfg r <> Some VIDEO_AND_AUDIO_CONSENT) after2 ->
  in_meeting_activities strptime (mkAttendanceReader cfg rows idx)
  = traverse (activity_of_record strptime (mkAttendanceReader cfg rows idx))
      (take (length before2 - length before1 - 3)
         (drop (length before1 + 2) rows)).
Proof.
  intros Hscan Hrows1 Hh1 Ha1 Hrows2 Hh2 Ha2.
  assert (Hm : idx !! MEETING_ACTIVITIES = Some (Z.of_nat (length before1) + 2)).
  { eapply section_index_of_last_heading; [by rewrite <- Hrows1 | done | done]. }
  assert (Hv : idx !! VIDEO_AND_AUDIO_CONSENT
               = Some (Z.of_nat (length before2) + 2)).
  { eapply section_index_of_last_heading; [by rewrite <- Hrows2 | done | done]. }
  assert (Hlen : (length before2 < length rows)%nat).
  { rewrite Hrows2, length_app. simpl. lia. }
  unfold in_meeting_activities. rewrite in_meeting_activities_traverse.
  unfold dict_getitem. simpl. rewrite Hm, Hv. simpl.
  rewrite traverse_rows_slice by lia. f_equal. f_equal; [lia | f_equal; lia].
Qed.

End Slices.

(** * Further properties of the qualification engine *)

Section QualificationMore.

Variables ws we : datetime.

Implicit Types (acts : list InMeetingActivity) (e : string) (f : Q)
  (pct : float).

(** X9. The order of the activities decides the order of the result and
    nothing else: on a reordered activity sequence the call returns a list
    of the same emails, or raises the same exception. *)
Theorem qualified_up_to_activity_order acts acts' pct :
  acts ≡ₚ acts' ->
  match get_qualified_participants acts ws we pct,
        get_qualified_participants acts' ws we pct with
  | Ok qualified, Ok qualified' => qualified ≡ₚ qualified'
  | Raise err, Raise err' => err = err'
  | _, _ => False
  end.
Proof.
  intros Hperm. unfold get_qualified_participants.
  destruct (minimum_minutes_threshold ws we pct) as [thr|err]; simpl; [| done].
  apply NoDup_Permutation.
  - eapply StronglySorted_irrefl_NoDup;
      [apply appears_before_irrefl | apply qualified_sorted].
  - eapply StronglySorted_irrefl_NoDup;
      [apply appears_before_irrefl | apply qualified_sorted].
  - intros e. rewrite !elem_of_qualified.
    rewrite (total_minutes_Permutation ws we e acts acts' Hperm).
    by rewrite Hperm.
Qed.

(** X10. When no activity ends before it starts, no total is positive;
    so with a threshold of one minute or more nobody qualifies, and the
    text written to the output file is empty. *)
Theorem positive_threshold_qualifies_nobody
    (strptime : string -> string -> option datetime) acts pct :
  (forall a, a ∈ acts -> join_time a <= leave_time a) ->
  (forall e (t : Z),
      dict_lookup (participant_time_mapping acts ws we) e = Some t -> t <= 0)
  /\ (forall thr : Z,
        minimum_minutes_threshold ws we pct = Ok thr -> 0 < thr ->
        get_qualified_participants acts ws we pct = Ok []
        /\ forall reader,
             in_meeting_activities strptime reader = Ok acts ->
             qualified_participants_file_text strptime reader ws we pct
             = Ok ""%string).
Proof.
  intros Hwf. split.
  - intros e t. rewrite participant_time_mapping_lookup.
    destruct (decide _); [| done]. intros [= <-].
    by apply total_minutes_nonpos.
  - intros thr Hthr Hpos.
    assert (Hnil : foldl (qualify_step thr) []
                     (participant_time_mapping acts ws we) = []).
    { apply elem_of_nil_inv. intros e [_ Hge]%elem_of_qualified.
      pose proof (total_minutes_nonpos ws we e acts Hwf). lia. }
    split.
    + unfold get_qualified_participants. rewrite Hthr. simpl. by rewrite Hnil.
    + intros reader Hread.
      unfold qualified_participants_file_text, tracker_get_qualified_participants.
      rewrite Hthr. simpl. rewrite Hread. simpl. by rewrite Hnil.
Qed.

(** X11. For a window between whole seconds that does not end before it
    starts and a fraction between 0 and 1, the threshold is computed
    without error and lies between 0 and the whole minutes of the
    window. *)
Theorem threshold_within_window f :
  whole_second ws -> whole_second we ->
  ws <= we -> (0 <= f)%Q -> (f <= 1)%Q ->
  exists thr : Z,
    minimum_minutes_threshold ws we (Finite f) = Ok thr
    /\ 0 <= thr <= (we - ws) / 60000000.
Proof.
  intros Hws Hwe Hw H0 H1.
  assert (Hlo : (-1 <= f)%Q) by (apply Qle_trans with 0%Q; [discriminate | done]).
  destruct (threshold_returns ws we f Hws Hwe Hlo H1) as [thr Hthr].
  exists thr. split; [done |]. apply threshold_Ok in Hthr as ->.
  destruct (whole_second_difference ws we Hws Hwe) as (sec & Hd & Hsec).
  pose proof (minutes_float_whole sec Hsec) as Hm.
  pose proof (whole_minutes_bound sec Hsec) as Hmb.
  rewrite <- Hd in Hm, Hmb.
  assert (Hm0 : 0 <= (we - ws) / 60000000) by (apply Z.div_pos; lia).
  set (m := (we - ws) / 60000000) in *.
  assert (Hmq : (0 <= inject_Z m)%Q).
  { change 0%Q with (inject_Z 0). by rewrite <- Zle_Qle. }
  split.
  - apply py_int_0_le. rewrite <- binary64_round_0 at 1.
    apply binary64_round_mono. rewrite Hm. by apply Qmult_le_0_compat.
  - transitivity (py_int (inject_Z m)); [| by rewrite py_int_Z].
    apply py_int_mono.
    rewrite <- (binary64_round_Z m) by done. apply binary64_round_mono.
    rewrite Hm. rewrite <- (Qmult_1_r (inject_Z m)) at 2.
    rewrite !(Qmult_comm (inject_Z m)). by apply Qmult_le_compat_r.
Qed.

End QualificationMore.

(** Off the whole seconds the upper bound can fail by one: from 1400-01-01
    00:00:00.000001 to 2024-03-21 14:00:00 the interval is
    19698472799.999999 s, which [total_seconds()] rounds to 19698472800.0;
    with fraction 1 the threshold is 328307880, one above the whole
    minutes of the window. *)
Example threshold_above_whole_minutes :
  let ws := on_day 510975 1 in
  let we := on_day 738966 (at_time 14 0 0) in
  minimum_minutes_threshold ws we (Finite 1) = Ok 328307880
  /\ (we - ws) / 60000000 = 328307879.
Proof. vm_compute. done. Qed.

(** * Qualification through the reader *)

Section TrackerPipeline.

Variable strptime : string -> string -> option datetime.
Variable cfg : AttendanceConfig.

(** X12. Qualification reads the activities section only, but its end is
    found through the next heading: with the offsets the scan returned on
    rows of which none announces MEETING_ACTIVITIES, or none announces
    VIDEO_AND_AUDIO_CONSENT, [get_qualified_participants] computes the
    threshold and then raises [KeyError], whatever the window and the
    fraction; no text is produced for the output file. *)
Theorem qualification_needs_both_headings (rows : list (list string))
    (label : SectionHeading) (idx : gmap SectionHeading Z)
    (ws we : datetime) (pct : float) :
  label = MEETING_ACTIVITIES \/ label = VIDEO_AND_AUDIO_CONSENT ->
  _extract_section_indexes cfg rows = Ok idx ->
  Forall (fun record => heading_of cfg record <> Some label) rows ->
  let reader := mkAttendanceReader cfg rows idx in
  tracker_get_qualified_participants strptime reader ws we pct
  = (_ <~ minimum_minutes_threshold ws we pct ;; Raise KeyError)
  /\ qualified_participants_file_text strptime reader ws we pct
     = (_ <~ minimum_minutes_threshold ws we pct ;; Raise KeyError).
Proof.
  intros Hlabel Hscan Habsent reader.
  assert (Hnone : idx !! label = None).
  { rewrite (section_indexes_lookup _ _ _ _ Hscan).
    apply last_heading_row_None in Habsent. by rewrite Habsent. }
  assert (Herr : in_meeting_activities strptime reader = Raise KeyError).
  { apply in_meeting_activities_KeyError. simpl.
    destruct Hlabel as [-> | ->]; [by left | by right]. }
  unfold qualified_participants_file_text, tracker_get_qualified_participants.
  rewrite Herr.
  by destruct (minimum_minutes_threshold ws we pct).
Qed.

End TrackerPipeline.

(** * The further properties on the sample export *)

Ltac sample_Forall tac :=
  cbv [sample_rows sample_rows_no_start leading_rows two_participants
       drop take app];
  repeat (apply Forall_cons; split; [tac |]);
  apply Forall_nil; exact I.

Lemma participant_row_decoding_witness :
  participant_of_record strptime_table sample_reader participant_row
  = Ok sample_participant.
Proof.
  apply (participant_row_decoding strptime_table sample_reader participant_row
           sample_participant).
  exists "Ann"%string, "03/21/24, 02:15:07 PM"%string,
    "03/21/24, 02:45:00 PM"%string, "29m 53s"%string, "ann@example.org"%string,
    "ann@example.org"%string, "Organizer"%string, [].
  repeat split; vm_compute; reflexivity.
Defined.

Lemma activity_row_decoding_witness :
  activity_of_record strptime_table sample_reader activity_row
  = Ok sample_activity.
Proof.
  apply (activity_row_decoding strptime_table sample_reader activity_row
           sample_activity).
  exists "Ann"%string, "03/21/24, 02:20:00 PM"%string,
    "03/21/24, 02:45:00 PM"%string, "25m"%string, "ann@example.org"%string,
    "Organizer"%string, [].
  repeat split; vm_compute; reflexivity.
Defined.

Lemma section_offsets_bounded_distinct_witness :
  (forall lbl (o : Z),
      sample_indexes !! lbl = Some o
      -> 2 <= o <= Z.of_nat (length sample_rows) + 1)
  /\ (forall (l1 l2 : SectionHeading) (o : Z),
        sample_indexes !! l1 = Some o -> sample_indexes !! l2 = Some o -> l1 = l2).
Proof.
  apply (section_offsets_bounded_distinct ATTENDANCE_CONFIG sample_rows
           sample_indexes).
  vm_compute. reflexivity.
Defined.

Lemma scan_reads_first_fields_only_witness :
  _extract_section_indexes ATTENDANCE_CONFIG sample_rows
  = _extract_section_indexes ATTENDANCE_CONFIG sample_rows_other_fields.
Proof.
  apply (scan_reads_first_fields_only ATTENDANCE_CONFIG sample_rows
           sample_rows_other_fields).
  vm_compute. reflexivity.
Defined.

Lemma trailing_rows_change_nothing_witness :
  _extract_section_indexes ATTENDANCE_CONFIG (sample_rows ++ leading_rows)
  = _extract_section_indexes ATTENDANCE_CONFIG sample_rows
  /\ read_participants strptime_table ATTENDANCE_CONFIG (sample_rows ++ leading_rows)
     = Ok [sample_participant].
Proof.
  destruct (trailing_rows_change_nothing strptime_table ATTENDANCE_CONFIG
              sample_rows leading_rows) as (Hsame & _ & Hps & _).
  - sample_Forall ltac:(eexists; eexists; split;
                        [reflexivity | vm_compute; reflexivity]).
  - split; [exact Hsame |]. apply Hps. vm_compute. reflexivity.
Defined.

Lemma start_time_two_rows_below_heading_witness :
  start_time strptime_table sample_reader = Ok (at_time 14 15 7).
Proof.
  assert (H1 : _extract_section_indexes ATTENDANCE_CONFIG
                 ([] ++ ["Start time"; ""]%string :: sample_rows_no_start)
               = Ok sample_indexes) by (vm_compute; reflexivity).
  assert (H2 : heading_of ATTENDANCE_CONFIG ["Start time"; ""]%string
               = Some START_TIME) by (vm_compute; reflexivity).
  assert (H3 : Forall (fun r => heading_of ATTENDANCE_CONFIG r <> Some START_TIME)
                 sample_rows_no_start)
    by sample_Forall ltac:(vm_compute; discriminate).
  pose proof (start_time_two_rows_below_heading strptime_table ATTENDANCE_CONFIG
                [] ["Start time"; ""]%string sample_rows_no_start sample_indexes
                H1 H2 H3) as H.
  etransitivity; [exact H | vm_compute; reflexivity].
Defined.

Lemma participants_rows_between_headings_witness :
  participants strptime_table sample_reader
  = traverse (participant_of_record strptime_table sample_reader)
      [participant_row].
Proof.
  apply (participants_rows_between_headings strptime_table ATTENDANCE_CONFIG
           sample_rows
           (take 3 sample_rows) ["2. Participants"]%string (drop 4 sample_rows)
           (take 7 sample_rows) ["3. In-Meeting Activities"]%string
           (drop 8 sample_rows) sample_indexes).
  - vm_compute. reflexivity.
  - vm_compute. reflexivity.
  - vm_compute. reflexivity.
  - sample_Forall ltac:(vm_compute; discriminate).
  - vm_compute. reflexivity.
  - vm_compute. reflexivity.
  - sample_Forall ltac:(vm_compute; discriminate).
Defined.

Lemma activities_rows_between_headings_witness :
  in_meeting_activities strptime_table sample_reader
  = traverse (activity_of_record strptime_table sample_reader) [activity_row].
Proof.
  apply (activities_rows_between_headings strptime_table ATTENDANCE_CONFIG
           sample_rows
           (take 7 sample_rows) ["3. In-Meeting Activities"]%string
           (drop 8 sample_rows)
           (take 11 sample_rows)
           ["4. Explicit Audio and Video Consent Information"]%string
           (drop 12 sample_rows) sample_indexes).
  - vm_compute. reflexivity.
  - vm_compute. reflexivity.
  - vm_compute. reflexivity.
  - sample_Forall ltac:(vm_compute; discriminate).
  - vm_compute. reflexivity.
  - vm_compute. reflexivity.
  - sample_Forall ltac:(vm_compute; discriminate).
Defined.

Lemma qualified_up_to_activity_order_witness :
  match get_qualified_participants two_participants (at_time 14 30 0)
          (at_time 14 0 0) (Finite 0),
        get_qualified_participants two_participants_rotated (at_time 14 30 0)
          (at_time 14 0 0) (Finite 0) with
  | Ok qualified, Ok qualified' => qualified ≡ₚ qualified'
  | Raise err, Raise err' => err = err'
  | _, _ => False
  end.
Proof.
  assert (H : two_participants ≡ₚ two_participants_rotated).
  { apply (Permutation_cons_append
             [activity_of "bob@example.org" (at_time 14 0 0) (at_time 14 20 0);
              activity_of "ann@example.org" (at_time 14 20 0) (at_time 14 30 0)]
             (activity_of "ann@example.org" (at_time 14 0 0) (at_time 14 10 0))). }
  exact (qualified_up_to_activity_order (at_time 14 30 0) (at_time 14 0 0)
           two_participants two_participants_rotated (Finite 0) H).
Defined.

(** The two orders give the two emails in different order. *)
Example rotated_activities_reorder_result :
  get_qualified_participants two_participants (at_time 14 30 0) (at_time 14 0 0)
    (Finite 0)
  = Ok ["ann@example.org"; "bob@example.org"]%string
  /\ get_qualified_participants two_participants_rotated (at_time 14 30 0)
       (at_time 14 0 0) (Finite 0)
     = Ok ["bob@example.org"; "ann@example.org"]%string.
Proof. vm_compute. done. Qed.

Lemma positive_threshold_qualifies_nobody_witness :
  get_qualified_participants two_participants (at_time 14 0 0) (at_time 15 0 0)
    (Finite (1 # 2))
  = Ok [].
Proof.
  assert (H : forall a, a ∈ two_participants -> join_time a <= leave_time a).
  { apply Forall_forall. sample_Forall ltac:(vm_compute; discriminate). }
  destruct (positive_threshold_qualifies_nobody (at_time 14 0 0) (at_time 15 0 0)
              strptime_table two_participants (Finite (1 # 2)) H) as [_ Hnobody].
  apply (Hnobody 30); [vm_compute; reflexivity | reflexivity].
Defined.

Lemma threshold_within_window_witness :
  exists thr : Z,
    minimum_minutes_threshold (at_time 14 0 0) (at_time 15 0 0) (Finite (1 # 2))
    = Ok thr
    /\ 0 <= thr <= (at_time 15 0 0 - at_time 14 0 0) / 60000000.
Proof.
  apply (threshold_within_window (at_time 14 0 0) (at_time 15 0 0) (1 # 2)).
  - apply whole_second_at_time. lia.
  - apply whole_second_at_time. lia.
  - vm_compute. discriminate.
  - vm_compute. discriminate.
  - vm_compute. discriminate.
Defined.

Lemma qualification_needs_both_headings_witness :
  tracker_get_qualified_participants strptime_table
    (mkAttendanceReader ATTENDANCE_CONFIG (take 11 sample_rows)
       (delete VIDEO_AND_AUDIO_CONSENT sample_indexes))
    (at_time 14 0 0) (at_time 15 0 0) (Finite (1 # 2))
  = Raise KeyError.
Proof.
  assert (H1 : _extract_section_indexes ATTENDANCE_CONFIG (take 11 sample_rows)
               = Ok (delete VIDEO_AND_AUDIO_CONSENT sample_indexes))
    by (vm_compute; reflexivity).
  assert (H2 : Forall (fun record => heading_of ATTENDANCE_CONFIG record
                                     <> Some VIDEO_AND_AUDIO_CONSENT)
                 (take 11 sample_rows))
    by sample_Forall ltac:(vm_compute; discriminate).
  destruct (qualification_needs_both_headings strptime_table ATTENDANCE_CONFIG
              (take 11 sample_rows) VIDEO_AND_AUDIO_CONSENT
              (delete VIDEO_AND_AUDIO_CONSENT sample_indexes)
              (at_time 14 0 0) (at_time 15 0 0) (Finite (1 # 2))
              (or_intror eq_refl) H1 H2) as [H _].
  etransitivity; [exact H | vm_compute; reflexivity].
Defined.
